(** * libfilewatcher: the inotify-backed FileWatcher JNI library

    A shallow embedding of [src/real/real_filewatcher.c] and of the debug
    toggle of [src/common/jni_helpers.c].

    - C [int] and [uint32_t] values are [Z], with the wrap-around of a
      32-bit store written out ([to_int32]).
    - [char event_buffer[BUF_LEN]] is a [list Z] of bytes; an access outside
      the array is undefined behaviour ([Undefined]).
    - A [jlong] watcher handle is the address of a [FileWatcher] in a heap
      ([gmap Z FileWatcher]); [free] removes the address, and dereferencing
      an address that is not allocated is undefined behaviour.
    - The calls into libc, pthread and the kernel are recorded in a trace,
      and act on a small model of the inotify facility. *)

From Stdlib Require Import ZArith Lia Bool String Ascii.
From stdpp Require Import base option list gmap.

Local Open Scope Z_scope.

(** ** Constants of <sys/inotify.h> (Linux ABI) *)

Definition IN_MODIFY     : Z := 0x2.
Definition IN_MOVED_FROM : Z := 0x40.
Definition IN_MOVED_TO   : Z := 0x80.
Definition IN_CREATE     : Z := 0x100.
Definition IN_DELETE     : Z := 0x200.
Definition IN_Q_OVERFLOW : Z := 0x4000.
Definition IN_IGNORED    : Z := 0x8000.
Definition IN_NONBLOCK   : Z := 0x800.

(** [struct inotify_event { int wd; uint32_t mask, cookie, len; char name[]; }] *)
Definition EVENT_SIZE : Z := 16.
Definition BUF_LEN : Z := 1024 * (EVENT_SIZE + 16).

(** ** Machine integers *)

(** The value a 32-bit [int] holds after a store of [x]. *)
Definition to_int32 (x : Z) : Z := (x + 2 ^ 31) mod 2 ^ 32 - 2 ^ 31.

(** ** Bytes, C strings and little-endian words *)

Definition bytes := list Z.

Definition byte_of_ascii (c : ascii) : Z := Z.of_N (N_of_ascii c).

Fixpoint str (s : string) : bytes :=
  match s with
  | EmptyString => []
  | String c s' => byte_of_ascii c :: str s'
  end.

(** The characters of the NUL-terminated string that starts at the head of
    [mem]; [None] when no terminator is found before the memory ends. *)
Fixpoint cstring (mem : bytes) : option bytes :=
  match mem with
  | [] => None
  | b :: mem' => if b =? 0 then Some [] else cons b <$> cstring mem'
  end.

(** A host-order (little-endian) [uint32_t] at byte offset [off]. *)
Definition read_u32 (mem : bytes) (off : Z) : option Z :=
  if off <? 0 then None
  else match take 4 (drop (Z.to_nat off) mem) with
       | [b0; b1; b2; b3] => Some (b0 + 256 * b1 + 65536 * b2 + 16777216 * b3)
       | _ => None
       end.

Definition cstring_at (mem : bytes) (off : Z) : option bytes :=
  if off <? 0 then None else cstring (drop (Z.to_nat off) mem).

Definition le32 (x : Z) : bytes :=
  [x mod 256; (x / 256) mod 256; (x / 65536) mod 256; (x / 16777216) mod 256].

(** ** Java side: [FileWatcher.EventKind] and [FileWatcher.Event] *)

Inductive EventKind := CREATED | MODIFIED | DELETED | OVERFLOW.

Record Event := mkEvent { kind : EventKind; path : bytes }.

#[global] Instance EventKind_eq_dec : EqDecision EventKind.
Proof. solve_decision. Defined.

#[global] Instance Event_eq_dec : EqDecision Event.
Proof. solve_decision. Defined.

(** What the JNI calls of the library can do: [GetStringUTFChars],
    [NewStringUTF] and [NewObject] return NULL ([None]) when the VM cannot
    allocate.  A [jstring] is identified with its UTF-8 bytes. *)
Record JNIEnv := {
  GetStringUTFChars : bytes -> option bytes;
  NewStringUTF : bytes -> option bytes;
  NewObject : EventKind -> bytes -> option Event;
  FindClasses : bool  (* the lookups of [init_jni_cache] all succeed *)
}.

(** A VM in which every allocation and lookup succeeds. *)
Definition jvm : JNIEnv :=
  {| GetStringUTFChars := fun s => Some s;
     NewStringUTF := fun s => Some s;
     NewObject := fun k p => Some (mkEvent k p);
     FindClasses := true |}.

(** ** [create_event_object]: kind classification *)

(** [event->mask & bits] as a C condition. *)
Definition mask_has (mask bits : Z) : bool := negb (Z.land mask bits =? 0).

Definition event_kind_of (mask : Z) : EventKind :=
  if mask_has mask (Z.lor IN_CREATE IN_MOVED_TO) then CREATED
  else if mask_has mask IN_MODIFY then MODIFIED
  else if mask_has mask (Z.lor IN_DELETE IN_MOVED_FROM) then DELETED
  else if mask_has mask IN_Q_OVERFLOW then OVERFLOW
  else MODIFIED.

(** ** [create_event_object]: path construction *)

(** [char full_path[1024]]: [snprintf] and [strncpy] keep at most 1023
    characters. *)
Definition FULL_PATH_MAX : nat := 1023.

Definition full_path_of (base_path : bytes) (len : Z) (name : bytes) : bytes :=
  if len >? 0
  then take FULL_PATH_MAX (base_path ++ str "/" ++ name)
  else take FULL_PATH_MAX base_path.

(** Outcome of a C computation over a state [S]: a value and the new state,
    or undefined behaviour. *)
Inductive outcome (S A : Type) :=
| Done (a : A) (s : S)
| Undefined.
Arguments Done {S A} a s.
Arguments Undefined {S A}.

(** [create_event_object(env, event, base_path)] where [event] points at
    offset [off] of [mem].  [None] is undefined behaviour (a read outside
    [mem]); [Some None] is a NULL result. *)
Definition create_event_object (env : JNIEnv) (mem : bytes) (off : Z)
    (base_path : bytes) : option (option Event) :=
  mask ← read_u32 mem (off + 4);
  let event_kind := event_kind_of mask in
  len ← read_u32 mem (off + 12);
  name ← (if len >? 0 then cstring_at mem (off + 16) else Some []);
  let full_path := full_path_of base_path len name in
  match NewStringUTF env full_path with
  | None => Some None
  | Some path_string => Some (NewObject env event_kind path_string)
  end.

(** ** The inotify facility

    A model of the part of the kernel the library talks to.  An inotify
    instance holds its registrations (watch descriptor, path) and the queue
    of events not read yet. *)

Record inotify_event := {
  wd : Z; mask : Z; cookie : Z; len : Z; name : bytes
}.

(** The bytes [read] delivers for one event. *)
Definition encode_event (ev : inotify_event) : bytes :=
  le32 (wd ev) ++ le32 (mask ev) ++ le32 (cookie ev) ++ le32 (len ev) ++ name ev.

Definition event_size (ev : inotify_event) : Z := EVENT_SIZE + len ev.

Record inotify := {
  watches : list (Z * bytes);
  next_wd : Z;
  queue : list inotify_event
}.

Record Kernel := {
  fds : gmap Z inotify;      (* open inotify descriptors *)
  next_fd : Z;
  fd_limit : Z;
  files : list bytes         (* the paths that exist *)
}.

Definition set_fds (f : gmap Z inotify -> gmap Z inotify) (k : Kernel) : Kernel :=
  {| fds := f (fds k); next_fd := next_fd k; fd_limit := fd_limit k;
     files := files k |}.

Definition lookup_fd (k : Kernel) (fd : Z) : option inotify :=
  if fd <? 0 then None else fds k !! fd.

(** [inotify_init1]: a new descriptor, or -1 at the descriptor limit.
    Reads in this model return at once, as they do on a descriptor opened
    with IN_NONBLOCK; the flags make no other difference here. *)
Definition sys_inotify_init1 (k : Kernel) (flags : Z) : Z * Kernel :=
  if (0 <=? next_fd k) && (next_fd k <? fd_limit k)
  then (next_fd k,
        {| fds := <[next_fd k := {| watches := []; next_wd := 1; queue := [] |}]> (fds k);
           next_fd := next_fd k + 1; fd_limit := fd_limit k; files := files k |})
  else (-1, k).

Definition wd_of_path (ws : list (Z * bytes)) (p : bytes) : option Z :=
  fst <$> List.find (fun e => bool_decide (snd e = p)) ws.

(** [inotify_add_watch]: -1 on a bad descriptor or a path that does not
    exist; the descriptor already assigned to the path if there is one;
    a new descriptor otherwise.  The kinds of change asked for are not
    kept: which events reach the queue is decided by [fs_change].  Of the
    kernel's reasons to refuse a path only these two are modelled (no
    permissions, no watch limit), and registrations go by path, not by
    inode. *)
Definition sys_inotify_add_watch (k : Kernel) (fd : Z) (p : bytes) (mask : Z)
    : Z * Kernel :=
  match lookup_fd k fd with
  | None => (-1, k)
  | Some ino =>
      if bool_decide (p ∈ files k) then
        match wd_of_path (watches ino) p with
        | Some w => (w, k)
        | None =>
            (next_wd ino,
             set_fds (insert fd {| watches := watches ino ++ [(next_wd ino, p)];
                                   next_wd := next_wd ino + 1;
                                   queue := queue ino |}) k)
        end
      else (-1, k)
  end.

(** The longest prefix of whole events that fits in [count] bytes. *)
Fixpoint take_events (count : Z) (q : list inotify_event)
    : list inotify_event * list inotify_event :=
  match q with
  | [] => ([], [])
  | ev :: q' =>
      if event_size ev <=? count
      then let '(t, r) := take_events (count - event_size ev) q' in (ev :: t, r)
      else ([], q)
  end.

(** Non-blocking [read]: the byte count and the bytes, or -1 (bad
    descriptor, nothing queued, or a first event larger than [count]). *)
Definition sys_read (k : Kernel) (fd : Z) (count : Z) : Z * bytes * Kernel :=
  match lookup_fd k fd with
  | None => (-1, [], k)
  | Some ino =>
      match take_events count (queue ino) with
      | ([], _) => (-1, [], k)
      | (evs, rest) =>
          let data := concat (encode_event <$> evs) in
          (Z.of_nat (length data), data,
           set_fds (insert fd {| watches := watches ino; next_wd := next_wd ino;
                                 queue := rest |}) k)
      end
  end.

(** [close]: the instance and its registrations are gone. *)
Definition sys_close (k : Kernel) (fd : Z) : Kernel :=
  match lookup_fd k fd with
  | None => k
  | Some _ => set_fds (delete fd) k
  end.

(** The registrations the kernel holds for path [p] on descriptor [fd]. *)
Definition registrations (k : Kernel) (fd : Z) (p : bytes) : list Z :=
  match lookup_fd k fd with
  | None => []
  | Some ino => fst <$> filter (fun e => snd e = p) (watches ino)
  end.

(** The name field of a queued event: the name, NUL-terminated and padded
    with NULs to a multiple of the header size. *)
Definition pad_name (nm : bytes) : bytes :=
  nm ++ replicate (16 - length nm mod 16)%nat 0.

Definition notify (dir : bytes) (m : Z) (nm : option bytes) (ino : inotify) : inotify :=
  match wd_of_path (watches ino) dir with
  | None => ino
  | Some w =>
      let field := match nm with Some n => pad_name n | None => [] end in
      {| watches := watches ino; next_wd := next_wd ino;
         queue := queue ino ++ [{| wd := w; mask := m; cookie := 0;
                                   len := Z.of_nat (length field);
                                   name := field |}] |}
  end.

(** A change of kind [m] in the watched directory [dir] (to its entry [nm],
    or to the directory itself): every instance that watches [dir] queues
    an event. *)
Definition fs_change (dir : bytes) (m : Z) (nm : option bytes) (k : Kernel) : Kernel :=
  set_fds (fmap (notify dir m nm)) k.

(** ** The process: heap, kernel and the calls made so far *)

(** [typedef struct { int inotify_fd; pthread_mutex_t mutex;
                     char event_buffer[BUF_LEN]; int buffer_pos, buffer_len; }
     FileWatcher] *)
Record FileWatcher := {
  inotify_fd : Z;
  mutex_locked : bool;
  event_buffer : bytes;
  buffer_pos : Z;
  buffer_len : Z
}.

Inductive action :=
| a_malloc (p : Z)
| a_free (p : Z)
| a_mutex_init (p : Z)
| a_mutex_lock (p : Z)
| a_mutex_unlock (p : Z)
| a_mutex_destroy (p : Z)
| a_inotify_init1 (ret : Z)
| a_inotify_add_watch (fd : Z) (p : bytes) (mask : Z) (ret : Z)
| a_read (fd : Z) (ret : Z)
| a_close (fd : Z).

#[global] Instance action_eq_dec : EqDecision action.
Proof. solve_decision. Defined.

Definition is_syscall (a : action) : bool :=
  match a with
  | a_inotify_init1 _ | a_inotify_add_watch _ _ _ _ | a_read _ _ | a_close _ => true
  | _ => false
  end.

Definition is_lock (a : action) : bool :=
  match a with a_mutex_lock _ => true | _ => false end.

Record World := {
  heap : gmap Z FileWatcher;  (* the allocated [FileWatcher] blocks *)
  next_addr : Z;              (* where [malloc] allocates next *)
  heap_limit : Z;             (* [malloc] fails at this address *)
  jni_cache : bool;           (* [event_class != NULL] *)
  kernel : Kernel;
  trace : list action         (* oldest call first *)
}.

Definition M (A : Type) : Type := World -> outcome World A.

Definition ret {A} (a : A) : M A := fun w => Done a w.

Definition bind {A B} (m : M A) (k : A -> M B) : M B :=
  fun w => match m w with
           | Done a w' => k a w'
           | Undefined => Undefined
           end.

Notation "x <-- m ;; k" := (bind m (fun x => k))
  (at level 100, m at next level, right associativity).
Notation "m ;;; k" := (bind m (fun _ => k))
  (at level 100, right associativity).

Definition undefined {A} : M A := fun _ => Undefined.

Definition with_heap (f : gmap Z FileWatcher -> gmap Z FileWatcher) (w : World) : World :=
  {| heap := f (heap w); next_addr := next_addr w; heap_limit := heap_limit w;
     jni_cache := jni_cache w; kernel := kernel w; trace := trace w |}.

Definition with_kernel (k : Kernel) (w : World) : World :=
  {| heap := heap w; next_addr := next_addr w; heap_limit := heap_limit w;
     jni_cache := jni_cache w; kernel := k; trace := trace w |}.

Definition emit (a : action) : M unit :=
  fun w => Done tt {| heap := heap w; next_addr := next_addr w;
                      heap_limit := heap_limit w; jni_cache := jni_cache w;
                      kernel := kernel w; trace := trace w ++ [a] |}.

(** [*watcher]: undefined behaviour unless [p] is allocated. *)
Definition deref (p : Z) : M FileWatcher :=
  fun w => match heap w !! p with
           | Some fw => Done fw w
           | None => Undefined
           end.

Definition store (p : Z) (fw : FileWatcher) : M unit :=
  fun w => match heap w !! p with
           | Some _ => Done tt (with_heap (insert p fw) w)
           | None => Undefined
           end.

Definition set_inotify_fd (v : Z) (fw : FileWatcher) : FileWatcher :=
  {| inotify_fd := v; mutex_locked := mutex_locked fw;
     event_buffer := event_buffer fw; buffer_pos := buffer_pos fw;
     buffer_len := buffer_len fw |}.

Definition set_mutex_locked (v : bool) (fw : FileWatcher) : FileWatcher :=
  {| inotify_fd := inotify_fd fw; mutex_locked := v;
     event_buffer := event_buffer fw; buffer_pos := buffer_pos fw;
     buffer_len := buffer_len fw |}.

Definition set_event_buffer (v : bytes) (fw : FileWatcher) : FileWatcher :=
  {| inotify_fd := inotify_fd fw; mutex_locked := mutex_locked fw;
     event_buffer := v; buffer_pos := buffer_pos fw;
     buffer_len := buffer_len fw |}.

Definition set_buffer_pos (v : Z) (fw : FileWatcher) : FileWatcher :=
  {| inotify_fd := inotify_fd fw; mutex_locked := mutex_locked fw;
     event_buffer := event_buffer fw; buffer_pos := v;
     buffer_len := buffer_len fw |}.

Definition set_buffer_len (v : Z) (fw : FileWatcher) : FileWatcher :=
  {| inotify_fd := inotify_fd fw; mutex_locked := mutex_locked fw;
     event_buffer := event_buffer fw; buffer_pos := buffer_pos fw;
     buffer_len := v |}.

(** [watcher->field = v] *)
Definition assign (p : Z) (f : FileWatcher -> FileWatcher) : M unit :=
  fw <-- deref p ;; store p (f fw).

(** *** libc and pthread *)

(** [malloc(sizeof(FileWatcher))]: NULL when memory is exhausted.  The
    block's indeterminate content is taken to be zero. *)
Definition malloc : M Z :=
  fun w =>
    if (0 <? next_addr w) && (next_addr w <? heap_limit w) then
      let p := next_addr w in
      Done p {| heap := <[p := {| inotify_fd := 0; mutex_locked := false;
                                 event_buffer := replicate (Z.to_nat BUF_LEN) 0;
                                 buffer_pos := 0; buffer_len := 0 |}]> (heap w);
                next_addr := p + 1; heap_limit := heap_limit w;
                jni_cache := jni_cache w; kernel := kernel w;
                trace := trace w ++ [a_malloc p] |}
    else Done 0 w.

Definition free (p : Z) : M unit :=
  fun w => match heap w !! p with
           | Some _ => emit (a_free p) (with_heap (delete p) w)
           | None => Undefined
           end.

Definition pthread_mutex_init (p : Z) : M unit :=
  assign p (set_mutex_locked false) ;;; emit (a_mutex_init p).

(** Locking a default mutex the caller already holds is undefined. *)
Definition pthread_mutex_lock (p : Z) : M unit :=
  fw <-- deref p ;;
  if mutex_locked fw then undefined
  else store p (set_mutex_locked true fw) ;;; emit (a_mutex_lock p).

Definition pthread_mutex_unlock (p : Z) : M unit :=
  fw <-- deref p ;;
  if mutex_locked fw
  then store p (set_mutex_locked false fw) ;;; emit (a_mutex_unlock p)
  else undefined.

Definition pthread_mutex_destroy (p : Z) : M unit :=
  fw <-- deref p ;;
  if mutex_locked fw then undefined else emit (a_mutex_destroy p).

(** *** System calls *)

Definition inotify_init1 (flags : Z) : M Z :=
  fun w => let '(fd, k) := sys_inotify_init1 (kernel w) flags in
           (emit (a_inotify_init1 fd) ;;; ret fd) (with_kernel k w).

Definition inotify_add_watch (fd : Z) (p : bytes) (mask : Z) : M Z :=
  fun w => let '(r, k) := sys_inotify_add_watch (kernel w) fd p mask in
           (emit (a_inotify_add_watch fd p mask r) ;;; ret r) (with_kernel k w).

(** [read(fd, watcher->event_buffer, BUF_LEN)]: the bytes read overwrite the
    start of the buffer, the rest keeps what it held. *)
Definition read_into_buffer (p : Z) (fd : Z) : M Z :=
  fun w => let '(n, data, k) := sys_read (kernel w) fd BUF_LEN in
           (emit (a_read fd n) ;;;
            fw <-- deref p ;;
            store p (set_event_buffer
                       (data ++ drop (length data) (event_buffer fw)) fw) ;;;
            ret n) (with_kernel k w).

Definition close_fd (fd : Z) : M unit :=
  fun w => emit (a_close fd) (with_kernel (sys_close (kernel w) fd) w).

(** A read of watcher memory that may fall outside the buffer. *)
Definition load {A} (o : option A) : M A :=
  match o with
  | Some a => ret a
  | None => undefined
  end.

(** ** The JNI entry points of [real_filewatcher.c] *)

(** [init_jni_cache]: the class and field lookups are taken to succeed or
    fail together.  [JniCache.init_jni_cache] has the function in full,
    and [WithCache.create] is [create] built on that. *)
Definition init_jni_cache (env : JNIEnv) : M bool :=
  fun w =>
    if jni_cache w then Done true w
    else if FindClasses env
         then Done true {| heap := heap w; next_addr := next_addr w;
                           heap_limit := heap_limit w; jni_cache := true;
                           kernel := kernel w; trace := trace w |}
         else Done false w.

Definition create (env : JNIEnv) : M Z :=
  watcher <-- malloc ;;
  if watcher =? 0 then ret 0 else
  fd <-- inotify_init1 IN_NONBLOCK ;;
  assign watcher (set_inotify_fd fd) ;;;
  if fd =? -1 then free watcher ;;; ret 0 else
  pthread_mutex_init watcher ;;;
  assign watcher (set_buffer_pos 0) ;;;
  assign watcher (set_buffer_len 0) ;;;
  ok <-- init_jni_cache env ;;
  if negb ok then
    close_fd fd ;;;
    pthread_mutex_destroy watcher ;;;
    free watcher ;;;
    ret 0
  else ret watcher.

Definition watch (env : JNIEnv) (watcherPtr : Z) (path : bytes) : M bool :=
  if watcherPtr =? 0 then ret false else
  match GetStringUTFChars env path with
  | None => ret false
  | Some path_str =>
      watcher <-- deref watcherPtr ;;
      wd <-- inotify_add_watch (inotify_fd watcher) path_str
               (Z.lor IN_CREATE (Z.lor IN_DELETE (Z.lor IN_MODIFY
                  (Z.lor IN_MOVED_FROM IN_MOVED_TO)))) ;;
      ret (wd >=? 0)
  end.

Definition unwatch (env : JNIEnv) (watcherPtr : Z) (path : bytes) : M unit :=
  if watcherPtr =? 0 then ret tt else
  ret tt.

Definition nextEvent (env : JNIEnv) (watcherPtr : Z) : M (option Event) :=
  if watcherPtr =? 0 then ret None else
  pthread_mutex_lock watcherPtr ;;;
  watcher <-- deref watcherPtr ;;
  empty <--
    (if buffer_pos watcher >=? buffer_len watcher then
       n <-- read_into_buffer watcherPtr (inotify_fd watcher) ;;
       assign watcherPtr (set_buffer_len (to_int32 n)) ;;;
       assign watcherPtr (set_buffer_pos 0) ;;;
       ret (to_int32 n <=? 0)
     else ret false) ;;
  if (empty : bool) then
    pthread_mutex_unlock watcherPtr ;;;
    ret None
  else
    watcher <-- deref watcherPtr ;;
    let event := buffer_pos watcher in
    event_len <-- load (read_u32 (event_buffer watcher) (event + 12)) ;;
    assign watcherPtr (set_buffer_pos (to_int32 (event + EVENT_SIZE + event_len))) ;;;
    pthread_mutex_unlock watcherPtr ;;;
    watcher <-- deref watcherPtr ;;
    load (create_event_object env (event_buffer watcher) event []).

Definition close (watcherPtr : Z) : M unit :=
  if watcherPtr =? 0 then ret tt else
  watcher <-- deref watcherPtr ;;
  close_fd (inotify_fd watcher) ;;;
  assign watcherPtr (set_inotify_fd (-1)).

Definition destroy (watcherPtr : Z) : M unit :=
  if watcherPtr =? 0 then ret tt else
  watcher <-- deref watcherPtr ;;
  (if inotify_fd watcher >=? 0 then close_fd (inotify_fd watcher) else ret tt) ;;;
  pthread_mutex_destroy watcherPtr ;;;
  free watcherPtr.

(** [n] successive calls of [nextEvent], results in call order. *)
Fixpoint poll_n (env : JNIEnv) (watcherPtr : Z) (n : nat) : M (list (option Event)) :=
  match n with
  | O => ret []
  | S n' =>
      e <-- nextEvent env watcherPtr ;;
      es <-- poll_n env watcherPtr n' ;;
      ret (e :: es)
  end.

(** The calls an operation adds to the trace. *)
Definition new_calls {A} (m : M A) (w : World) : option (list action) :=
  match m w with
  | Done _ w' => Some (drop (length (trace w)) (trace w'))
  | Undefined => None
  end.

Definition value_of {A} (o : outcome World A) : option A :=
  match o with
  | Done a _ => Some a
  | Undefined => None
  end.

Definition world_of {A} (o : outcome World A) (w : World) : World :=
  match o with
  | Done _ w' => w'
  | Undefined => w
  end.

(** Something outside the process changes the file system. *)
Definition outside (f : Kernel -> Kernel) : M unit :=
  fun w => Done tt (with_kernel (f (kernel w)) w).

(** The world after [nextEvent] took the record at the cursor, of name
    length [n], from the buffer of [fw]. *)
Definition after_event (p : Z) (fw : FileWatcher) (n : Z) (w : World) : World :=
  {| heap := <[p := set_buffer_pos (to_int32 (buffer_pos fw + EVENT_SIZE + n)) fw]> (heap w);
     next_addr := next_addr w; heap_limit := heap_limit w;
     jni_cache := jni_cache w; kernel := kernel w;
     trace := trace w ++ [a_mutex_lock p; a_mutex_unlock p] |}.

(** The world after [nextEvent] found the buffer used up and the kernel
    refused the read. *)
Definition after_failed_read (p : Z) (fw : FileWatcher) (w : World) : World :=
  {| heap := <[p := set_buffer_pos 0 (set_buffer_len (-1) fw)]> (heap w);
     next_addr := next_addr w; heap_limit := heap_limit w;
     jni_cache := jni_cache w; kernel := kernel w;
     trace := trace w ++ [a_mutex_lock p; a_read (inotify_fd fw) (-1);
                          a_mutex_unlock p] |}.

(** ** Well-formed kernel records *)

Definition is_byte (b : Z) : bool := (0 <=? b) && (b <? 256).

(** What the kernel writes: fields in range, [len] the size of the name
    field, and a name field that is empty or holds a terminator. *)
Definition wf_event (ev : inotify_event) : bool :=
  (- 2 ^ 31 <=? wd ev) && (wd ev <? 2 ^ 31)
  && (0 <=? mask ev) && (mask ev <? 2 ^ 32)
  && (0 <=? cookie ev) && (cookie ev <? 2 ^ 32)
  && (len ev =? Z.of_nat (length (name ev))) && (len ev <? 2 ^ 32)
  && forallb is_byte (name ev)
  && match name ev with
     | [] => true
     | _ => existsb (Z.eqb 0) (name ev)
     end.

(** The characters before the first NUL. *)
Fixpoint until_nul (s : bytes) : bytes :=
  match s with
  | [] => []
  | b :: s' => if b =? 0 then [] else b :: until_nul s'
  end.

(** The event [nextEvent] builds for a record (its base path is empty). *)
Definition event_of (ev : inotify_event) : Event :=
  {| kind := event_kind_of (mask ev);
     path := full_path_of [] (len ev) (until_nul (name ev)) |}.

(** What reaches the caller for a record: NULL when the VM cannot build
    the string or the object. *)
Definition deliver (env : JNIEnv) (ev : inotify_event) : option Event :=
  match NewStringUTF env (full_path_of [] (len ev) (until_nul (name ev))) with
  | None => None
  | Some s => NewObject env (event_kind_of (mask ev)) s
  end.

Definition records_bytes (evs : list inotify_event) : bytes :=
  concat (encode_event <$> evs).

(** The bytes between the cursor and the reported length. *)
Definition unread (fw : FileWatcher) : Z :=
  Z.max 0 (buffer_len fw - buffer_pos fw).

(** The unread part of the watcher's buffer is exactly the records [evs]:
    [pre] is what was consumed, [rest] what the array holds after them. *)
Definition holds_records (fw : FileWatcher) (pre : bytes)
    (evs : list inotify_event) (rest : bytes) : Prop :=
  event_buffer fw = pre ++ records_bytes evs ++ rest
  /\ Z.of_nat (length (event_buffer fw)) = BUF_LEN
  /\ buffer_pos fw = Z.of_nat (length pre)
  /\ unread fw = Z.of_nat (length (records_bytes evs))
  /\ forallb wf_event evs = true.

(** The recognised bits of a mask, by position. *)
Definition creation_bit (m : Z) : bool := Z.testbit m 8 || Z.testbit m 7.
Definition modification_bit (m : Z) : bool := Z.testbit m 1.
Definition deletion_bit (m : Z) : bool := Z.testbit m 9 || Z.testbit m 6.
Definition overflow_bit (m : Z) : bool := Z.testbit m 14.

(** ** [jni_helpers.c]: the debug toggle *)

Module JniHelpers.

(** [static int debug_enabled = -1], and how often [getenv] was called. *)
Record Process := {
  debug_enabled : Z;
  getenv_calls : nat
}.

Definition start : Process := {| debug_enabled := -1; getenv_calls := 0 |}.

(** [*s] for a C string [s]. *)
Definition first_char (s : string) : ascii :=
  match s with
  | EmptyString => zero
  | String c _ => c
  end.

Definition is_debug_enabled (getenv : string -> option string) (st : Process)
    : Z * Process :=
  if debug_enabled st =? -1 then
    let debug_env := getenv "FILEWATCHER_DEBUG"%string in
    let v := match debug_env with
             | Some s => if Ascii.eqb (first_char s) "0"%char then 0 else 1
             | None => 0
             end in
    (v, {| debug_enabled := v; getenv_calls := S (getenv_calls st) |})
  else (debug_enabled st, st).

(** [debug_log]: the lines written to stderr. *)
Definition debug_log (getenv : string -> option string) (msg : string)
    (st : Process) : list string * Process :=
  let '(on, st') := is_debug_enabled getenv st in
  if on =? 0 then ([], st')
  else ([("[FileWatcher DEBUG] " ++ msg)%string], st').

Definition unset : string -> option string := fun _ => None.

Definition setenv (v : string) : string -> option string :=
  fun k => if String.eqb k "FILEWATCHER_DEBUG" then Some v else None.

End JniHelpers.

(** ** A process to run scenarios in *)

Definition kernel0 : Kernel :=
  {| fds := ∅; next_fd := 3; fd_limit := 1024; files := [str "/tmp/x"] |}.

Definition world0 : World :=
  {| heap := ∅; next_addr := 4096; heap_limit := 2 ^ 40; jni_cache := false;
     kernel := kernel0; trace := [] |}.

(** [create] then [watch("/tmp/x")]: handle 4096 on descriptor 3. *)
Definition watching : World :=
  world_of ((h <-- create jvm ;; watch jvm h (str "/tmp/x")) world0) world0.

Definition created_foo : Kernel -> Kernel :=
  fs_change (str "/tmp/x") IN_CREATE (Some (str "foo.txt")).

Definition modified_foo : Kernel -> Kernel :=
  fs_change (str "/tmp/x") IN_MODIFY (Some (str "foo.txt")).

(** The records the kernel queues for those changes (watch descriptor 1). *)
Definition ev_created : inotify_event :=
  {| wd := 1; mask := IN_CREATE; cookie := 0; len := 16;
     name := pad_name (str "foo.txt") |}.

Definition ev_modified : inotify_event :=
  {| wd := 1; mask := IN_MODIFY; cookie := 0; len := 16;
     name := pad_name (str "foo.txt") |}.


(** The watch was removed by the kernel: no recognised bit, no name. *)
Definition ev_ignored : inotify_event :=
  {| wd := 1; mask := IN_IGNORED; cookie := 0; len := 0; name := [] |}.

(** A watcher at address 4096 whose buffer starts with [data], of which
    [reported] bytes were returned by the read and [pos] are consumed. *)
Definition tail_of (data : bytes) : bytes :=
  replicate (Z.to_nat BUF_LEN - length data) 0.

Definition watcher_with (data : bytes) (pos reported : Z) : FileWatcher :=
  {| inotify_fd := 3; mutex_locked := false;
     event_buffer := data ++ tail_of data;
     buffer_pos := pos; buffer_len := reported |}.

Definition world_with (fw : FileWatcher) : World :=
  {| heap := {[ 4096 := fw ]}; next_addr := 4097; heap_limit := 2 ^ 40;
     jni_cache := true; kernel := kernel watching; trace := [] |}.



(** Two changes, one event taken, then [close]: one record is left in the
    buffer. *)
Definition closed_with_backlog : World :=
  world_of ((outside created_foo ;;;
             outside modified_foo ;;;
             nextEvent jvm 4096 ;;;
             close 4096) watching) watching.

(** [create] then [destroy]. *)
Definition destroyed : World :=
  world_of ((h <-- create jvm ;; destroy h) world0) world0.

(** [watch("/tmp/x")] then [unwatch("/tmp/x")]. *)
Definition unwatched : World :=
  world_of (unwatch jvm 4096 (str "/tmp/x") watching) watching.

(** ** Further notions used by the properties beyond the claims *)

(** The events queued on descriptor [fd] and not read yet. *)
Definition pending (k : Kernel) (fd : Z) : list inotify_event :=
  match lookup_fd k fd with
  | Some ino => queue ino
  | None => []
  end.

(** What [create] stores in a new watcher on descriptor [fd]. *)
Definition fresh_watcher (fd : Z) : FileWatcher :=
  {| inotify_fd := fd; mutex_locked := false;
     event_buffer := replicate (Z.to_nat BUF_LEN) 0;
     buffer_pos := 0; buffer_len := 0 |}.

(** One of the six bits [create_event_object] looks at. *)
Definition recognised_bit (m : Z) : bool :=
  creation_bit m || modification_bit m || deletion_bit m || overflow_bit m.

(** A VM that cannot allocate the path string. *)
Definition jvm_no_memory : JNIEnv :=
  {| GetStringUTFChars := fun s => Some s;
     NewStringUTF := fun _ => None;
     NewObject := fun k p => Some (mkEvent k p);
     FindClasses := true |}.


(** Two watchers, on descriptors 3 and 4, both watching "/tmp/x"; the
    second has one record unread. *)
Definition two_watchers : World :=
  {| heap := <[8192 := set_inotify_fd 4 (watcher_with (encode_event ev_ignored) 0 16)]>
               {[ 4096 := watcher_with [] 0 0 ]};
     next_addr := 8193; heap_limit := 2 ^ 40; jni_cache := true;
     kernel := set_fds (insert 4 {| watches := [(1, str "/tmp/x")];
                                    next_wd := 2; queue := [] |})
                       (kernel watching);
     trace := [] |}.

(** The value a computation returns, over any state. *)
Definition returned {S A} (o : outcome S A) : option A :=
  match o with
  | Done a _ => Some a
  | Undefined => None
  end.

(** The world [close] leaves for the watcher [fw] at [p]. *)
Definition after_close (p : Z) (fw : FileWatcher) (w : World) : World :=
  {| heap := <[p := set_inotify_fd (-1) fw]> (heap w);
     next_addr := next_addr w; heap_limit := heap_limit w;
     jni_cache := jni_cache w;
     kernel := sys_close (kernel w) (inotify_fd fw);
     trace := trace w ++ [a_close (inotify_fd fw)] |}.

(** The world after [nextEvent] found the buffer used up, read [data]
    ([n] bytes, kernel then [k]) and took the first record, of name length
    [l]. *)
Definition after_refill (p : Z) (fw : FileWatcher) (n : Z) (data : bytes)
    (l : Z) (k : Kernel) (w : World) : World :=
  {| heap := <[p := {| inotify_fd := inotify_fd fw; mutex_locked := false;
                       event_buffer :=
                         data ++ drop (length data) (event_buffer fw);
                       buffer_pos := to_int32 (0 + EVENT_SIZE + l);
                       buffer_len := to_int32 n |}]> (heap w);
     next_addr := next_addr w; heap_limit := heap_limit w;
     jni_cache := jni_cache w; kernel := k;
     trace := trace w ++ [a_mutex_lock p; a_read (inotify_fd fw) n;
                          a_mutex_unlock p] |}.

(** ** [init_jni_cache], [JNI_OnLoad] and [JNI_OnUnload] in full

    The seven static variables of [real_filewatcher.c] and the JNI calls
    that fill them.  A reference or id is a number; NULL is [None]. *)

Module JniCache.

Record Cache := {
  event_class : option Z;
  event_constructor : option Z;
  eventkind_class : option Z;
  created_field : option Z;
  modified_field : option Z;
  deleted_field : option Z;
  overflow_field : option Z
}.

(** The static initialisers: all NULL. *)
Definition cold : Cache :=
  {| event_class := None; event_constructor := None; eventkind_class := None;
     created_field := None; modified_field := None; deleted_field := None;
     overflow_field := None |}.

Record VM := {
  FindClass : string -> option Z;
  NewGlobalRef : Z -> option Z;
  GetMethodID : Z -> string -> string -> option Z;
  GetStaticFieldID : Z -> string -> string -> option Z;
  GetEnv : bool  (* [GetEnv(vm, &env, JNI_VERSION_1_8) == JNI_OK] *)
}.

Inductive call :=
| c_FindClass (name : string)
| c_NewGlobalRef (ref : Z)
| c_DeleteLocalRef (ref : Z)
| c_DeleteGlobalRef (ref : Z)
| c_GetMethodID (cls : Z) (name sig : string)
| c_GetStaticFieldID (cls : Z) (name sig : string).

Definition EVENT : string :=
  "com/jetbrains/analyzer/filewatcher/FileWatcher$Event".
Definition EVENTKIND : string :=
  "com/jetbrains/analyzer/filewatcher/FileWatcher$EventKind".
Definition CTOR_SIG : string :=
  "(Lcom/jetbrains/analyzer/filewatcher/FileWatcher$EventKind;Ljava/lang/String;)V".
Definition KIND_SIG : string :=
  "Lcom/jetbrains/analyzer/filewatcher/FileWatcher$EventKind;".

Definition State : Type := Cache * list call.

Definition set_event_class (v : option Z) (c : Cache) : Cache :=
  {| event_class := v; event_constructor := event_constructor c;
     eventkind_class := eventkind_class c; created_field := created_field c;
     modified_field := modified_field c; deleted_field := deleted_field c;
     overflow_field := overflow_field c |}.

Definition set_event_constructor (v : option Z) (c : Cache) : Cache :=
  {| event_class := event_class c; event_constructor := v;
     eventkind_class := eventkind_class c; created_field := created_field c;
     modified_field := modified_field c; deleted_field := deleted_field c;
     overflow_field := overflow_field c |}.

Definition set_eventkind_class (v : option Z) (c : Cache) : Cache :=
  {| event_class := event_class c; event_constructor := event_constructor c;
     eventkind_class := v; created_field := created_field c;
     modified_field := modified_field c; deleted_field := deleted_field c;
     overflow_field := overflow_field c |}.

Definition set_fields (cr mo de ov : option Z) (c : Cache) : Cache :=
  {| event_class := event_class c; event_constructor := event_constructor c;
     eventkind_class := eventkind_class c; created_field := cr;
     modified_field := mo; deleted_field := de; overflow_field := ov |}.

Definition is_null (o : option Z) : bool :=
  match o with Some _ => false | None => true end.

(** [init_jni_cache].  A class reference that [NewGlobalRef] could not
    make is NULL; handing it to [GetMethodID] or [GetStaticFieldID] is
    undefined. *)
Definition init_jni_cache (vm : VM) (st : State) : outcome State Z :=
  let '(c, t) := st in
  if negb (is_null (event_class c)) then Done 1 (c, t) else
  match FindClass vm EVENT with
  | None => Done 0 (c, t ++ [c_FindClass EVENT])
  | Some local_event_class =>
      let c := set_event_class (NewGlobalRef vm local_event_class) c in
      let t := t ++ [c_FindClass EVENT; c_NewGlobalRef local_event_class;
                     c_DeleteLocalRef local_event_class] in
      match event_class c with
      | None => Undefined
      | Some cls =>
          let c := set_event_constructor (GetMethodID vm cls "<init>" CTOR_SIG) c in
          let t := t ++ [c_GetMethodID cls "<init>" CTOR_SIG] in
          if is_null (event_constructor c) then Done 0 (c, t) else
          match FindClass vm EVENTKIND with
          | None => Done 0 (c, t ++ [c_FindClass EVENTKIND])
          | Some local_eventkind_class =>
              let c := set_eventkind_class
                         (NewGlobalRef vm local_eventkind_class) c in
              let t := t ++ [c_FindClass EVENTKIND;
                             c_NewGlobalRef local_eventkind_class;
                             c_DeleteLocalRef local_eventkind_class] in
              match eventkind_class c with
              | None => Undefined
              | Some kcls =>
                  let c := set_fields
                             (GetStaticFieldID vm kcls "CREATED" KIND_SIG)
                             (GetStaticFieldID vm kcls "MODIFIED" KIND_SIG)
                             (GetStaticFieldID vm kcls "DELETED" KIND_SIG)
                             (GetStaticFieldID vm kcls "OVERFLOW" KIND_SIG) c in
                  let t := t ++ [c_GetStaticFieldID kcls "CREATED" KIND_SIG;
                                 c_GetStaticFieldID kcls "MODIFIED" KIND_SIG;
                                 c_GetStaticFieldID kcls "DELETED" KIND_SIG;
                                 c_GetStaticFieldID kcls "OVERFLOW" KIND_SIG] in
                  if is_null (created_field c) || is_null (modified_field c)
                     || is_null (deleted_field c) || is_null (overflow_field c)
                  then Done 0 (c, t)
                  else Done 1 (c, t)
              end
          end
      end
  end.

Definition JNI_VERSION_1_8 : Z := 0x00010008.

Definition JNI_OnLoad (vm : VM) : Z := JNI_VERSION_1_8.

Definition JNI_OnUnload (vm : VM) (st : State) : State :=
  let '(c, t) := st in
  if GetEnv vm then
    let '(c, t) :=
      match event_class c with
      | Some r => (set_event_class None c, t ++ [c_DeleteGlobalRef r])
      | None => (c, t)
      end in
    match eventkind_class c with
    | Some r => (set_eventkind_class None c, t ++ [c_DeleteGlobalRef r])
    | None => (c, t)
    end
  else (c, t).

(** All seven variables are set. *)
Definition complete (c : Cache) : bool :=
  negb (is_null (event_class c)) && negb (is_null (event_constructor c))
  && negb (is_null (eventkind_class c)) && negb (is_null (created_field c))
  && negb (is_null (modified_field c)) && negb (is_null (deleted_field c))
  && negb (is_null (overflow_field c)).

(** A VM that knows both classes and all their members. *)
Definition vm_ok : VM :=
  {| FindClass := fun n => if String.eqb n EVENT then Some 10 else Some 20;
     NewGlobalRef := fun r => Some (r + 1);
     GetMethodID := fun _ _ _ => Some 30;
     GetStaticFieldID := fun _ n _ => Some (Z.of_nat (String.length n));
     GetEnv := true |}.

(** A VM whose [Event] class has no constructor of the expected
    signature. *)
Definition vm_no_ctor : VM :=
  {| FindClass := FindClass vm_ok; NewGlobalRef := NewGlobalRef vm_ok;
     GetMethodID := fun _ _ _ => None;
     GetStaticFieldID := GetStaticFieldID vm_ok; GetEnv := true |}.

End JniCache.

(** ** [create] with [init_jni_cache] in full

    The process is the world together with the seven cache variables and
    the JNI calls made for them. *)

Module WithCache.

Definition Process : Type := World * JniCache.State.

Definition MJ (A : Type) : Type := Process -> outcome Process A.

Definition retJ {A} (a : A) : MJ A := fun s => Done a s.

Definition bindJ {A B} (m : MJ A) (k : A -> MJ B) : MJ B :=
  fun s => match m s with
           | Done a s' => k a s'
           | Undefined => Undefined
           end.

(** A step that concerns the world only. *)
Definition in_world {A} (m : M A) : MJ A :=
  fun s => match m (fst s) with
           | Done a w' => Done a (w', snd s)
           | Undefined => Undefined
           end.

(** A step that concerns the cache only. *)
Definition in_cache {A} (f : JniCache.State -> outcome JniCache.State A) : MJ A :=
  fun s => match f (snd s) with
           | Done a st' => Done a (fst s, st')
           | Undefined => Undefined
           end.

Notation "x <-* m ;; k" := (bindJ m (fun x => k))
  (at level 100, m at next level, right associativity).
Notation "m ;;* k" := (bindJ m (fun _ => k))
  (at level 100, right associativity).

Definition create (vm : JniCache.VM) : MJ Z :=
  watcher <-* in_world malloc ;;
  if watcher =? 0 then retJ 0 else
  fd <-* in_world (inotify_init1 IN_NONBLOCK) ;;
  in_world (assign watcher (set_inotify_fd fd)) ;;*
  if fd =? -1 then in_world (free watcher) ;;* retJ 0 else
  in_world (pthread_mutex_init watcher) ;;*
  in_world (assign watcher (set_buffer_pos 0)) ;;*
  in_world (assign watcher (set_buffer_len 0)) ;;*
  ok <-* in_cache (JniCache.init_jni_cache vm) ;;
  if ok =? 0 then
    in_world (close_fd fd) ;;*
    in_world (pthread_mutex_destroy watcher) ;;*
    in_world (free watcher) ;;*
    retJ 0
  else retJ watcher.

End WithCache.

(** ** [jni_helpers.c]: [error_log] and [check_jni_exception] *)

Module JniLog.

(** [error_log]: the line written to stderr, whatever the debug toggle. *)
Definition error_log (msg : string) : list string :=
  [("[FileWatcher ERROR] " ++ msg)%string].

(** The exception pending in the calling thread, by its description. *)
Record Thread := { pending_exception : option string }.

(** [check_jni_exception]: result, thread afterwards, lines on stderr
    ([ExceptionDescribe] writes the description). *)
Definition check_jni_exception (th : Thread) (context : string)
    : Z * Thread * list string :=
  match pending_exception th with
  | Some description =>
      (1, {| pending_exception := None |},
       error_log ("JNI exception in " ++ context) ++ [description])
  | None => (0, th, [])
  end.

(** Successive [debug_log] calls, each with the environment of its
    moment. *)
Fixpoint debug_logs (calls : list ((string -> option string) * string))
    (st : JniHelpers.Process) : list string * JniHelpers.Process :=
  match calls with
  | [] => ([], st)
  | (getenv, msg) :: calls' =>
      let '(out, st') := JniHelpers.debug_log getenv msg st in
      let '(outs, st'') := debug_logs calls' st' in
      (out ++ outs, st'')
  end.

End JniLog.

(** * Properties *)

(** ** Kind classification *)

Lemma land_pow2 (m n : Z) :
  0 <= n -> Z.land m (2 ^ n) = if Z.testbit m n then 2 ^ n else 0.
Proof.
  intros Hn. apply Z.bits_inj'. intros k Hk.
  rewrite Z.land_spec, Z.pow2_bits_eqb by assumption.
  destruct (Z.eqb_spec n k) as [->|Hne].
  - destruct (Z.testbit m k) eqn:E.
    + now rewrite Z.pow2_bits_true.
    + now rewrite Z.bits_0.
  - rewrite andb_false_r. destruct (Z.testbit m n).
    + rewrite Z.pow2_bits_false; auto.
    + now rewrite Z.bits_0.
Qed.

Lemma mask_has_bit (m n : Z) :
  0 <= n -> mask_has m (2 ^ n) = Z.testbit m n.
Proof.
  intros Hn. unfold mask_has. rewrite land_pow2 by assumption.
  destruct (Z.testbit m n); [|reflexivity].
  assert (0 < 2 ^ n) by (apply Z.pow_pos_nonneg; lia).
  destruct (Z.eqb_spec (2 ^ n) 0); [lia | reflexivity].
Qed.

Lemma lor_eqb_0 (x y : Z) : (Z.lor x y =? 0) = (x =? 0) && (y =? 0).
Proof.
  destruct (Z.eqb_spec (Z.lor x y) 0) as [E|E].
  - apply Z.lor_eq_0_iff in E. destruct E as [-> ->]. reflexivity.
  - destruct (Z.eqb_spec x 0) as [->|]; [|reflexivity].
    destruct (Z.eqb_spec y 0) as [->|]; [|reflexivity].
    exfalso. apply E. reflexivity.
Qed.

Lemma mask_has_two_bits (m a b : Z) :
  0 <= a -> 0 <= b ->
  mask_has m (Z.lor (2 ^ a) (2 ^ b)) = Z.testbit m a || Z.testbit m b.
Proof.
  intros Ha Hb. rewrite <- !mask_has_bit by assumption. unfold mask_has.
  rewrite Z.land_lor_distr_r, lor_eqb_0. apply negb_andb.
Qed.

(** The code's tests [mask & (A | B)] read the bits the header file assigns
    to the constants. *)
Lemma event_kind_of_bits (m : Z) :
  event_kind_of m =
    if creation_bit m then CREATED
    else if modification_bit m then MODIFIED
    else if deletion_bit m then DELETED
    else if overflow_bit m then OVERFLOW
    else MODIFIED.
Proof.
  unfold event_kind_of, creation_bit, modification_bit, deletion_bit, overflow_bit.
  change (Z.lor IN_CREATE IN_MOVED_TO) with (Z.lor (2 ^ 8) (2 ^ 7)).
  change (Z.lor IN_DELETE IN_MOVED_FROM) with (Z.lor (2 ^ 9) (2 ^ 6)).
  change IN_MODIFY with (2 ^ 1). change IN_Q_OVERFLOW with (2 ^ 14).
  rewrite !mask_has_two_bits, !mask_has_bit by lia. reflexivity.
Qed.

(** C3: classification of a kind bitmask follows the precedence
    creation/rename-in > modification > deletion/rename-out >
    queue-overflow: a mask with a creation or rename-in bit is [CREATED]
    whatever else is set; without those, a modification bit gives
    [MODIFIED]; without those, a deletion or rename-out bit gives
    [DELETED]; without those, the overflow bit gives [OVERFLOW].  In
    particular creation together with modification is [CREATED]. *)
Theorem event_kind_precedence (m : Z) :
  (creation_bit m = true -> event_kind_of m = CREATED)
  /\ (creation_bit m = false -> modification_bit m = true ->
      event_kind_of m = MODIFIED)
  /\ (creation_bit m = false -> modification_bit m = false ->
      deletion_bit m = true -> event_kind_of m = DELETED)
  /\ (creation_bit m = false -> modification_bit m = false ->
      deletion_bit m = false -> overflow_bit m = true ->
      event_kind_of m = OVERFLOW)
  /\ event_kind_of (Z.lor IN_CREATE IN_MODIFY) = CREATED.
Proof.
  rewrite event_kind_of_bits.
  repeat split; try (intros; repeat match goal with H : _ = _ |- _ => rewrite H end; reflexivity).
Qed.

Lemma event_kind_precedence_witness :
  event_kind_of (Z.lor IN_CREATE IN_MODIFY) = CREATED
  /\ event_kind_of (Z.lor IN_MODIFY IN_DELETE) = MODIFIED
  /\ event_kind_of (Z.lor IN_MOVED_FROM IN_Q_OVERFLOW) = DELETED
  /\ event_kind_of IN_Q_OVERFLOW = OVERFLOW.
Proof.
  split; [|split; [|split]].
  - destruct (event_kind_precedence (Z.lor IN_CREATE IN_MODIFY)) as (H & _).
    apply H. reflexivity.
  - destruct (event_kind_precedence (Z.lor IN_MODIFY IN_DELETE)) as (_ & H & _).
    apply H; reflexivity.
  - destruct (event_kind_precedence (Z.lor IN_MOVED_FROM IN_Q_OVERFLOW))
      as (_ & _ & H & _).
    apply H; reflexivity.
  - destruct (event_kind_precedence IN_Q_OVERFLOW) as (_ & _ & _ & H & _).
    apply H; reflexivity.
Defined.

(** ** Decoding a record from the buffer *)

Lemma le32_value (x : Z) :
  0 <= x < 2 ^ 32 ->
  x mod 256 + 256 * ((x / 256) mod 256) + 65536 * ((x / 65536) mod 256)
  + 16777216 * ((x / 16777216) mod 256) = x.
Proof.
  intros Hx.
  pose proof (Z.div_mod x 256 ltac:(lia)) as H0.
  pose proof (Z.div_mod (x / 256) 256 ltac:(lia)) as H1.
  pose proof (Z.div_mod (x / 65536) 256 ltac:(lia)) as H2.
  assert (E1 : x / 256 / 256 = x / 65536) by (rewrite Z.div_div by lia; reflexivity).
  assert (E2 : x / 65536 / 256 = x / 16777216) by (rewrite Z.div_div by lia; reflexivity).
  rewrite E1 in H1. rewrite E2 in H2.
  assert (H3 : 0 <= x / 16777216 < 256).
  { split; [apply Z.div_pos; lia | apply Z.div_lt_upper_bound; lia]. }
  rewrite (Z.mod_small (x / 16777216) 256) by assumption.
  lia.
Qed.

Lemma le32_length (x : Z) : length (le32 x) = 4%nat.
Proof. reflexivity. Qed.

Lemma read_u32_app (pre l : bytes) (k : Z) :
  0 <= k -> read_u32 (pre ++ l) (Z.of_nat (length pre) + k) = read_u32 l k.
Proof.
  intros Hk. unfold read_u32.
  destruct (Z.ltb_spec (Z.of_nat (length pre) + k) 0); [lia|].
  destruct (Z.ltb_spec k 0); [lia|].
  rewrite Z2Nat.inj_add, Nat2Z.id by lia.
  rewrite drop_app_add. reflexivity.
Qed.

Lemma read_u32_head (x : Z) (tl : bytes) :
  0 <= x < 2 ^ 32 -> read_u32 (le32 x ++ tl) 0 = Some x.
Proof.
  intros Hx. unfold read_u32, le32. cbn [Z.ltb Z.compare Z.to_nat drop take app].
  f_equal. apply le32_value. assumption.
Qed.

Lemma cstring_at_app (pre l : bytes) (k : Z) :
  0 <= k -> cstring_at (pre ++ l) (Z.of_nat (length pre) + k) = cstring_at l k.
Proof.
  intros Hk. unfold cstring_at.
  destruct (Z.ltb_spec (Z.of_nat (length pre) + k) 0); [lia|].
  destruct (Z.ltb_spec k 0); [lia|].
  rewrite Z2Nat.inj_add, Nat2Z.id by lia.
  rewrite drop_app_add. reflexivity.
Qed.

Lemma cstring_until_nul (nm rest : bytes) :
  existsb (Z.eqb 0) nm = true -> cstring (nm ++ rest) = Some (until_nul nm).
Proof.
  induction nm as [|b nm IH]; [discriminate|].
  cbn [existsb app cstring until_nul]. intros H.
  destruct (Z.eqb_spec b 0) as [->|Hb]; [reflexivity|].
  destruct (Z.eqb_spec 0 b) as [E|_]; [congruence|].
  rewrite IH by exact H. reflexivity.
Qed.

Lemma wf_event_inv (ev : inotify_event) :
  wf_event ev = true ->
  0 <= mask ev < 2 ^ 32 /\ 0 <= cookie ev < 2 ^ 32
  /\ len ev = Z.of_nat (length (name ev)) /\ len ev < 2 ^ 32
  /\ (name ev <> [] -> existsb (Z.eqb 0) (name ev) = true).
Proof.
  unfold wf_event. intros H.
  repeat (apply andb_prop in H; destruct H as [H ?]).
  repeat match goal with
         | H : (_ <=? _) = true |- _ => apply Z.leb_le in H
         | H : (_ <? _) = true |- _ => apply Z.ltb_lt in H
         | H : (_ =? _) = true |- _ => apply Z.eqb_eq in H
         end.
  repeat split; try lia.
  intros Hne. destruct (name ev); [congruence | assumption].
Qed.

Lemma encode_event_length (ev : inotify_event) :
  wf_event ev = true ->
  Z.of_nat (length (encode_event ev)) = event_size ev.
Proof.
  intros Hwf. apply wf_event_inv in Hwf. destruct Hwf as (_ & _ & Hlen & _ & _).
  unfold encode_event, event_size, EVENT_SIZE.
  rewrite !length_app, !le32_length. lia.
Qed.

Section Record_at_cursor.
Variables (pre rest : bytes) (ev : inotify_event).
Hypothesis Hwf : wf_event ev = true.

Let mem := pre ++ encode_event ev ++ rest.
Let off := Z.of_nat (length pre).

Lemma record_mask : read_u32 mem (off + 4) = Some (mask ev).
Proof.
  destruct (wf_event_inv ev Hwf) as (Hm & _).
  subst mem off. rewrite read_u32_app by lia.
  unfold encode_event. rewrite <- !app_assoc.
  change 4 with (Z.of_nat (length (le32 (wd ev))) + 0).
  rewrite read_u32_app by lia. apply read_u32_head. assumption.
Qed.

Lemma record_len : read_u32 mem (off + 12) = Some (len ev).
Proof.
  destruct (wf_event_inv ev Hwf) as (_ & _ & Hl & Hlt & _).
  subst mem off. rewrite read_u32_app by lia.
  unfold encode_event. rewrite <- !app_assoc.
  change 12 with (Z.of_nat (length (le32 (wd ev))) + 8).
  rewrite read_u32_app by lia.
  change 8 with (Z.of_nat (length (le32 (mask ev))) + 4).
  rewrite read_u32_app by lia.
  change 4 with (Z.of_nat (length (le32 (cookie ev))) + 0).
  rewrite read_u32_app by lia. apply read_u32_head. lia.
Qed.

Lemma record_name :
  len ev > 0 -> cstring_at mem (off + 16) = Some (until_nul (name ev)).
Proof.
  intros Hpos.
  destruct (wf_event_inv ev Hwf) as (_ & _ & Hl & _ & Hnul).
  subst mem off. rewrite cstring_at_app by lia.
  unfold encode_event. rewrite <- !app_assoc.
  change 16 with (Z.of_nat (length (le32 (wd ev))) + 12).
  rewrite cstring_at_app by lia.
  change 12 with (Z.of_nat (length (le32 (mask ev))) + 8).
  rewrite cstring_at_app by lia.
  change 8 with (Z.of_nat (length (le32 (cookie ev))) + 4).
  rewrite cstring_at_app by lia.
  change 4 with (Z.of_nat (length (le32 (len ev))) + 0).
  rewrite cstring_at_app by lia.
  unfold cstring_at. cbn [Z.ltb Z.compare Z.to_nat drop].
  apply cstring_until_nul, Hnul.
  intros E. rewrite E in Hl. simpl in Hl. lia.
Qed.

(** The object built for a record in the buffer, whatever the buffer's
    reported length. *)
Lemma create_event_object_record (env : JNIEnv) (base : bytes) :
  create_event_object env mem off base =
    Some (match NewStringUTF env
                  (full_path_of base (len ev) (until_nul (name ev))) with
          | None => None
          | Some s => NewObject env (event_kind_of (mask ev)) s
          end).
Proof.
  unfold create_event_object.
  rewrite record_mask, record_len. cbn [mbind option_bind].
  destruct (len ev >? 0) eqn:Hpos.
  - rewrite record_name by lia. cbn [mbind option_bind].
    destruct (NewStringUTF env _); reflexivity.
  - cbn [mbind option_bind].
    assert (E : full_path_of base (len ev) [] =
                full_path_of base (len ev) (until_nul (name ev))).
    { unfold full_path_of. rewrite Hpos. reflexivity. }
    rewrite E. destruct (NewStringUTF env _); reflexivity.
Qed.
End Record_at_cursor.

(** ** One call of [nextEvent] *)

Ltac run_step :=
  unfold bind, ret, deref, store, assign, emit, load, undefined, with_heap,
    with_kernel, pthread_mutex_lock, pthread_mutex_unlock;
  cbn [heap kernel trace next_addr heap_limit jni_cache
       inotify_fd mutex_locked event_buffer buffer_pos buffer_len
       set_mutex_locked set_buffer_pos set_buffer_len set_event_buffer
       set_inotify_fd];
  rewrite ?lookup_insert_eq, ?insert_insert_eq.

(** Runs the monadic code, rewriting with the facts [tac] knows. *)
Ltac run_using tac := repeat (progress (run_step; tac)).

(** With unread bytes in the buffer the call does not go to the kernel: it
    takes the header at the cursor and moves the cursor past the record. *)
Lemma nextEvent_buffered env w p fw n r :
  p <> 0 ->
  heap w !! p = Some fw ->
  mutex_locked fw = false ->
  buffer_pos fw < buffer_len fw ->
  read_u32 (event_buffer fw) (buffer_pos fw + 12) = Some n ->
  create_event_object env (event_buffer fw) (buffer_pos fw) [] = Some r ->
  nextEvent env p w = Done r (after_event p fw n w).
Proof.
  intros Hp Hfw Hm Hlt Hn Hr. unfold nextEvent.
  destruct (Z.eqb_spec p 0); [contradiction|].
  destruct fw as [fd lk buf pos blen]. cbn in Hm, Hlt, Hn, Hr. subst lk.
  assert (Hge : (pos >=? blen) = false) by (rewrite Z.geb_leb; apply Z.leb_gt; lia).
  run_using ltac:(rewrite ?Hfw, ?Hge, ?Hn, ?Hr).
  unfold after_event. cbn. rewrite <- app_assoc. reflexivity.
Qed.

Lemma to_int32_small (x : Z) : - 2 ^ 31 <= x < 2 ^ 31 -> to_int32 x = x.
Proof. intros H. unfold to_int32. rewrite Z.mod_small; lia. Qed.

(** With the buffer used up and a read that returns -1 (descriptor closed,
    or nothing queued) the call returns NULL. *)
Lemma nextEvent_failed_read env w p fw :
  p <> 0 ->
  heap w !! p = Some fw ->
  mutex_locked fw = false ->
  buffer_len fw <= buffer_pos fw ->
  sys_read (kernel w) (inotify_fd fw) BUF_LEN = (-1, [], kernel w) ->
  nextEvent env p w = Done None (after_failed_read p fw w).
Proof.
  intros Hp Hfw Hm Hle Hrd. unfold nextEvent.
  destruct (Z.eqb_spec p 0); [contradiction|].
  destruct fw as [fd lk buf pos blen]. cbn in Hm, Hle, Hrd. subst lk.
  assert (Hge : (pos >=? blen) = true) by (rewrite Z.geb_leb; apply Z.leb_le; lia).
  unfold read_into_buffer.
  run_using ltac:(rewrite ?Hfw, ?Hge, ?Hrd).
  change (to_int32 (-1)) with (-1). cbn [Z.leb Z.compare].
  run_using idtac.
  unfold after_failed_read. cbn. rewrite <- !app_assoc. reflexivity.
Qed.

(** A record at the cursor, with the cursor below the reported length:
    the call delivers that record, whether or not the reported length
    covers it. *)
Lemma nextEvent_record env w p fw pre ev rest :
  p <> 0 ->
  heap w !! p = Some fw ->
  mutex_locked fw = false ->
  event_buffer fw = pre ++ encode_event ev ++ rest ->
  buffer_pos fw = Z.of_nat (length pre) ->
  buffer_pos fw < buffer_len fw ->
  wf_event ev = true ->
  nextEvent env p w = Done (deliver env ev) (after_event p fw (len ev) w).
Proof.
  intros Hp Hfw Hm Hbuf Hpos Hlt Hwf.
  apply nextEvent_buffered; try assumption.
  - rewrite Hbuf, Hpos. apply record_len, Hwf.
  - rewrite Hbuf, Hpos. rewrite create_event_object_record by exact Hwf.
    reflexivity.
Qed.

(** ** Draining the buffer *)

Lemma records_bytes_cons (ev : inotify_event) (evs : list inotify_event) :
  records_bytes (ev :: evs) = encode_event ev ++ records_bytes evs.
Proof. reflexivity. Qed.

Lemma set_buffer_pos_twice (a b : Z) (fw : FileWatcher) :
  set_buffer_pos a (set_buffer_pos b fw) = set_buffer_pos a fw.
Proof. reflexivity. Qed.

(** Taking the first record leaves a buffer that holds the others. *)
Lemma holds_records_step fw pre ev evs rest :
  holds_records fw pre (ev :: evs) rest ->
  buffer_pos fw < buffer_len fw
  /\ to_int32 (buffer_pos fw + EVENT_SIZE + len ev) = buffer_pos fw + event_size ev
  /\ holds_records
       (set_buffer_pos (buffer_pos fw + event_size ev) fw)
       (pre ++ encode_event ev) evs rest.
Proof.
  intros (Hbuf & Hsz & Hpos & Hun & Hwf).
  cbn [forallb] in Hwf. apply andb_prop in Hwf. destruct Hwf as [Hwf Hwfs].
  pose proof (encode_event_length ev Hwf) as Hlen.
  assert (Hev : 0 <= len ev).
  { destruct (wf_event_inv ev Hwf) as (_ & _ & -> & _). lia. }
  rewrite records_bytes_cons, length_app in Hun. unfold unread in Hun.
  assert (Hfit : buffer_pos fw + event_size ev <= BUF_LEN).
  { rewrite <- Hsz, Hbuf, records_bytes_cons, !length_app. lia. }
  assert (HB : BUF_LEN = 32768) by reflexivity.
  assert (HE : EVENT_SIZE = 16) by reflexivity.
  unfold event_size in *. rewrite HE in *. rewrite HB in *.
  split; [lia|]. split.
  - rewrite <- Z.add_assoc. apply to_int32_small. lia.
  - unfold holds_records, unread.
    cbn [event_buffer buffer_pos buffer_len set_buffer_pos].
    repeat split.
    + rewrite Hbuf, records_bytes_cons, <- !app_assoc. reflexivity.
    + rewrite HB. assumption.
    + rewrite length_app. lia.
    + lia.
    + assumption.
Qed.

(** As many calls as the buffer holds records deliver the records in buffer
    order, without a read from the kernel, and leave the cursor at the
    reported length. *)
Lemma poll_n_records env p rest evs :
  forall w fw pre,
    p <> 0 ->
    heap w !! p = Some fw ->
    mutex_locked fw = false ->
    holds_records fw pre evs rest ->
    exists w',
      poll_n env p (length evs) w = Done (deliver env <$> evs) w'
      /\ heap w' !! p =
           Some (set_buffer_pos
                   (buffer_pos fw + Z.of_nat (length (records_bytes evs))) fw)
      /\ kernel w' = kernel w
      /\ filter (fun a => is_syscall a = true) (trace w')
         = filter (fun a => is_syscall a = true) (trace w).
Proof.
  induction evs as [|ev evs IH]; intros w fw pre Hp Hfw Hm Hrec.
  - exists w. cbn. repeat split; try reflexivity.
    rewrite Hfw. destruct fw. cbn. rewrite Z.add_0_r. reflexivity.
  - destruct (holds_records_step _ _ _ _ _ Hrec) as (Hlt & Hint & Hrec').
    destruct Hrec as (Hbuf & Hsz & Hpos & Hun & Hwf).
    cbn [forallb] in Hwf. apply andb_prop in Hwf. destruct Hwf as [Hwf Hwfs].
    rewrite records_bytes_cons, <- app_assoc in Hbuf.
    pose proof (nextEvent_record env w p fw pre ev _ Hp Hfw Hm Hbuf Hpos Hlt Hwf)
      as Hstep.
    set (w1 := after_event p fw (len ev) w) in *.
    assert (Hfw1 : heap w1 !! p =
                   Some (set_buffer_pos (buffer_pos fw + event_size ev) fw)).
    { subst w1. unfold after_event. cbn [heap].
      rewrite lookup_insert_eq, Hint. reflexivity. }
    destruct (IH w1 _ _ Hp Hfw1 Hm Hrec') as (w' & Hrun & Hfw' & Hk & Htr).
    exists w'. cbn [length poll_n fmap list_fmap]. unfold bind at 1.
    rewrite Hstep. fold w1. unfold bind at 1. rewrite Hrun.
    repeat split.
    + rewrite Hfw'. rewrite set_buffer_pos_twice. f_equal. f_equal.
      cbn [buffer_pos set_buffer_pos]. rewrite records_bytes_cons, length_app.
      rewrite <- (encode_event_length ev Hwf). lia.
    + rewrite Hk. reflexivity.
    + rewrite Htr. subst w1. unfold after_event. cbn [trace].
      rewrite filter_app. cbn. apply app_nil_r.
Qed.



(** ** Masks without a recognised bit *)

(** C10: an event whose mask holds none of the creation, rename-in,
    modification, deletion, rename-out and queue-overflow bits is
    classified all the same, as [MODIFIED], and [nextEvent] hands it to
    the caller as a [MODIFIED] event instead of dropping it. *)
Theorem unrecognized_mask_delivered_as_modified w p fw pre ev rest :
  p <> 0 ->
  heap w !! p = Some fw ->
  mutex_locked fw = false ->
  event_buffer fw = pre ++ encode_event ev ++ rest ->
  buffer_pos fw = Z.of_nat (length pre) ->
  buffer_pos fw < buffer_len fw ->
  wf_event ev = true ->
  creation_bit (mask ev) = false ->
  modification_bit (mask ev) = false ->
  deletion_bit (mask ev) = false ->
  overflow_bit (mask ev) = false ->
  event_kind_of (mask ev) = MODIFIED
  /\ exists w',
       nextEvent jvm p w =
         Done (Some {| kind := MODIFIED;
                       path := full_path_of [] (len ev) (until_nul (name ev)) |}) w'.
Proof.
  intros Hp Hfw Hm Hbuf Hpos Hlt Hwf Hc Hmo Hd Ho.
  assert (Hk : event_kind_of (mask ev) = MODIFIED).
  { rewrite event_kind_of_bits, Hc, Hmo, Hd, Ho. reflexivity. }
  split; [exact Hk|].
  exists (after_event p fw (len ev) w).
  rewrite (nextEvent_record jvm w p fw pre ev rest) by assumption.
  unfold deliver. cbn [NewStringUTF NewObject jvm]. rewrite Hk. reflexivity.
Qed.

Lemma unrecognized_mask_delivered_as_modified_witness :
  event_kind_of (mask ev_ignored) = MODIFIED
  /\ exists w',
       nextEvent jvm 4096 (world_with (watcher_with (encode_event ev_ignored) 0 16))
       = Done (Some {| kind := MODIFIED;
                       path := full_path_of [] (len ev_ignored)
                                 (until_nul (name ev_ignored)) |}) w'.
Proof.
  apply (unrecognized_mask_delivered_as_modified
           (world_with (watcher_with (encode_event ev_ignored) 0 16)) 4096
           (watcher_with (encode_event ev_ignored) 0 16)
           [] ev_ignored (tail_of (encode_event ev_ignored))).
  - lia.
  - apply lookup_singleton_eq.
  - reflexivity.
  - reflexivity.
  - reflexivity.
  - vm_compute. reflexivity.
  - reflexivity.
  - reflexivity.
  - reflexivity.
  - reflexivity.
  - reflexivity.
Defined.

(** ** A reported length that ends inside a record *)






(** ** Polling a closed watcher *)

Lemma poll_n_app env p a b w :
  poll_n env p (a + b) w =
    (xs <-- poll_n env p a ;; ys <-- poll_n env p b ;; ret (xs ++ ys)) w.
Proof.
  revert w. induction a as [|a IH]; intros w.
  - cbn [Nat.add poll_n]. unfold bind, ret.
    destruct (poll_n env p b w); reflexivity.
  - cbn [Nat.add poll_n]. unfold bind at 1 3 4.
    destruct (nextEvent env p w) as [e w1|]; [|reflexivity].
    unfold bind at 1. rewrite IH. unfold bind, ret.
    destruct (poll_n env p a w1) as [xs w2|]; [|reflexivity].
    destruct (poll_n env p b w2) as [ys w3|]; reflexivity.
Qed.

(** [close] gives the descriptor back and stores -1; cursor, reported
    length and buffer stay as they were. *)
Lemma close_live w p fw :
  p <> 0 ->
  heap w !! p = Some fw ->
  exists w',
    close p w = Done tt w'
    /\ heap w' !! p = Some (set_inotify_fd (-1) fw)
    /\ trace w' = trace w ++ [a_close (inotify_fd fw)].
Proof.
  intros Hp Hfw. unfold close, close_fd.
  destruct (Z.eqb_spec p 0); [contradiction|].
  run_using ltac:(rewrite ?Hfw).
  eexists. split; [reflexivity|]. cbn [heap trace].
  rewrite lookup_insert_eq. split; reflexivity.
Qed.

Lemma sys_read_bad_fd k fd count :
  fd < 0 -> sys_read k fd count = (-1, [], k).
Proof.
  intros H. unfold sys_read, lookup_fd.
  destruct (Z.ltb_spec fd 0); [reflexivity | lia].
Qed.

(** Once the descriptor is -1 and the buffer is used up, every call
    returns NULL. *)
Lemma poll_n_closed env p n :
  forall w fw,
    p <> 0 ->
    heap w !! p = Some fw ->
    mutex_locked fw = false ->
    buffer_len fw <= buffer_pos fw ->
    inotify_fd fw < 0 ->
    exists w', poll_n env p n w = Done (replicate n None) w'.
Proof.
  induction n as [|n IH]; intros w fw Hp Hfw Hm Hle Hfd.
  - exists w. reflexivity.
  - pose proof (nextEvent_failed_read env w p fw Hp Hfw Hm Hle
                  (sys_read_bad_fd _ _ _ Hfd)) as Hstep.
    destruct (IH (after_failed_read p fw w)
                 (set_buffer_pos 0 (set_buffer_len (-1) fw)) Hp)
      as (w' & Hrun).
    + unfold after_failed_read. cbn [heap]. apply lookup_insert_eq.
    + exact Hm.
    + cbn. lia.
    + exact Hfd.
    + exists w'. cbn [poll_n replicate]. unfold bind at 1. rewrite Hstep.
      unfold bind at 1. rewrite Hrun. reflexivity.
Qed.

(** C6 fails: two changes, one event taken, then [close]; the next
    [nextEvent] returns the record still in the buffer, not NULL. *)
Lemma poll_after_close_returns_backlog :
  value_of (nextEvent jvm 4096 closed_with_backlog)
  = Some (Some {| kind := MODIFIED; path := str "/foo.txt" |}).
Proof. vm_compute. reflexivity. Qed.

(** C6, amended: after [close], [nextEvent] first hands out the records
    that were read into the buffer before the [close], in order, one per
    call; once these are used up every further call returns NULL, however
    many calls follow. *)
Theorem polls_after_close w p fw pre evs rest n :
  p <> 0 ->
  heap w !! p = Some fw ->
  mutex_locked fw = false ->
  holds_records fw pre evs rest ->
  exists w1 w2,
    close p w = Done tt w1
    /\ poll_n jvm p (length evs + n) w1
       = Done ((Some ∘ event_of <$> evs) ++ replicate n None) w2.
Proof.
  intros Hp Hfw Hm Hrec.
  destruct (close_live w p fw Hp Hfw) as (w1 & Hclose & Hfw1 & _).
  assert (Hrec1 : holds_records (set_inotify_fd (-1) fw) pre evs rest) by exact Hrec.
  destruct (poll_n_records jvm p rest evs w1 _ pre Hp Hfw1 Hm Hrec1)
    as (w2 & Hrun & Hfw2 & _).
  destruct (poll_n_closed jvm p n w2 _ Hp Hfw2 Hm) as (w3 & Hnull).
  - destruct Hrec as (_ & _ & _ & Hun & _). unfold unread in Hun.
    cbn [buffer_pos buffer_len set_buffer_pos set_inotify_fd]. lia.
  - cbn. lia.
  - exists w1, w3. split; [exact Hclose|].
    rewrite poll_n_app. unfold bind at 1. rewrite Hrun.
    unfold bind at 1. rewrite Hnull. unfold ret. f_equal.
Qed.

Lemma polls_after_close_witness :
  exists w1 w2,
    close 4096 (world_with (watcher_with (records_bytes [ev_created; ev_modified]) 32 64))
    = Done tt w1
    /\ poll_n jvm 4096 (length [ev_modified] + 3) w1
       = Done ((Some ∘ event_of <$> [ev_modified]) ++ replicate 3 None) w2.
Proof.
  apply (polls_after_close
           (world_with (watcher_with (records_bytes [ev_created; ev_modified]) 32 64))
           4096
           (watcher_with (records_bytes [ev_created; ev_modified]) 32 64)
           (encode_event ev_created) [ev_modified]
           (tail_of (records_bytes [ev_created; ev_modified])) 3).
  - lia.
  - apply lookup_singleton_eq.
  - reflexivity.
  - split.
    + unfold watcher_with. cbn [event_buffer].
      rewrite records_bytes_cons at 1. rewrite <- app_assoc. reflexivity.
    + repeat apply conj; vm_compute; reflexivity.
Defined.

(** ** Handles: destroyed and null *)

Lemma lookup_fd_closed k fd : lookup_fd (sys_close k fd) fd = None.
Proof.
  unfold sys_close. destruct (lookup_fd k fd) eqn:E; [|exact E].
  unfold lookup_fd in *. cbn [fds set_fds].
  destruct (fd <? 0); [reflexivity|]. apply lookup_delete_eq.
Qed.

(** [destroy] closes the descriptor if it is still open, and frees the
    block. *)
Lemma destroy_live w p fw :
  p <> 0 ->
  heap w !! p = Some fw ->
  mutex_locked fw = false ->
  exists w',
    destroy p w = Done tt w'
    /\ heap w' !! p = None
    /\ lookup_fd (kernel w') (inotify_fd fw) = None.
Proof.
  intros Hp Hfw Hm. unfold destroy.
  destruct (Z.eqb_spec p 0); [contradiction|].
  unfold pthread_mutex_destroy, free, close_fd.
  destruct (inotify_fd fw >=? 0) eqn:Hfd.
  - run_using ltac:(rewrite ?Hfw, ?Hfd, ?Hm).
    eexists. split; [reflexivity|]. cbn [heap kernel]. split.
    + apply lookup_delete_eq.
    + apply lookup_fd_closed.
  - run_using ltac:(rewrite ?Hfw, ?Hfd, ?Hm).
    eexists. split; [reflexivity|]. cbn [heap kernel]. split.
    + apply lookup_delete_eq.
    + unfold lookup_fd. rewrite Z.geb_leb in Hfd. apply Z.leb_gt in Hfd.
      destruct (Z.ltb_spec (inotify_fd fw) 0); [reflexivity | lia].
Qed.

(** C7 fails: after [create] and [destroy] the handle 4096 is a dangling
    pointer that the entry points still dereference; no operation on it
    returns its failure value. *)
Lemma destroyed_handle_is_dereferenced :
  heap destroyed !! 4096 = None
  /\ watch jvm 4096 (str "/tmp/x") destroyed = Undefined
  /\ unwatch jvm 4096 (str "/tmp/x") destroyed = Done tt destroyed
  /\ nextEvent jvm 4096 destroyed = Undefined
  /\ close 4096 destroyed = Undefined
  /\ destroy 4096 destroyed = Undefined.
Proof. repeat apply conj; vm_compute; reflexivity. Qed.

(** C7, amended: [destroy] closes the descriptor and frees the instance,
    and keeps no record of it.  The handle the entry points reject is the
    null handle: on it [watch] returns false, [nextEvent] returns NULL,
    and [unwatch], [close] and [destroy] return, each leaving the process
    and the kernel untouched and making no call. *)
Theorem destroy_frees_and_null_handle_is_rejected env path w p fw :
  p <> 0 ->
  heap w !! p = Some fw ->
  mutex_locked fw = false ->
  (exists w',
     destroy p w = Done tt w'
     /\ heap w' !! p = None
     /\ lookup_fd (kernel w') (inotify_fd fw) = None)
  /\ (forall w0,
        watch env 0 path w0 = Done false w0
        /\ unwatch env 0 path w0 = Done tt w0
        /\ nextEvent env 0 w0 = Done None w0
        /\ close 0 w0 = Done tt w0
        /\ destroy 0 w0 = Done tt w0).
Proof.
  intros Hp Hfw Hm. split.
  - apply (destroy_live w p fw); assumption.
  - intros w0. repeat apply conj; reflexivity.
Qed.

Lemma destroy_frees_and_null_handle_is_rejected_witness :
  (exists w',
     destroy 4096 (world_with (watcher_with [] 0 0)) = Done tt w'
     /\ heap w' !! 4096 = None
     /\ lookup_fd (kernel w')
          (inotify_fd (watcher_with [] 0 0)) = None)
  /\ (forall w0,
        watch jvm 0 (str "/tmp/x") w0 = Done false w0
        /\ unwatch jvm 0 (str "/tmp/x") w0 = Done tt w0
        /\ nextEvent jvm 0 w0 = Done None w0
        /\ close 0 w0 = Done tt w0
        /\ destroy 0 w0 = Done tt w0).
Proof.
  apply (destroy_frees_and_null_handle_is_rejected jvm (str "/tmp/x")
           (world_with (watcher_with [] 0 0)) 4096 (watcher_with [] 0 0)).
  - lia.
  - apply lookup_singleton_eq.
  - reflexivity.
Defined.

(** ** The mutex *)

Lemma watch_live env w p fw path_str :
  p <> 0 ->
  heap w !! p = Some fw ->
  exists w' r,
    watch env p path_str w =
      match GetStringUTFChars env path_str with
      | None => Done false w
      | Some s => Done r w'
      end
    /\ (GetStringUTFChars env path_str <> None ->
        exists s wd, GetStringUTFChars env path_str = Some s
                     /\ trace w' = trace w ++
                          [a_inotify_add_watch (inotify_fd fw) s 962 wd]).
Proof.
  intros Hp Hfw. unfold watch.
  destruct (Z.eqb_spec p 0); [contradiction|].
  destruct (GetStringUTFChars env path_str) as [s|].
  - unfold inotify_add_watch.
    run_using ltac:(rewrite ?Hfw).
    destruct (sys_inotify_add_watch (kernel w) (inotify_fd fw) s _) as [r k].
    run_using idtac.
    eexists _, _. split; [reflexivity|].
    intros _. exists s, r. split; reflexivity.
  - exists w, false. split; [reflexivity|]. intros H. congruence.
Qed.

(** The calls of [close] on any live watcher: the kernel call, and no
    lock. *)
Lemma close_calls w p fw :
  p <> 0 ->
  heap w !! p = Some fw ->
  new_calls (close p) w = Some [a_close (inotify_fd fw)].
Proof.
  intros Hp Hfw.
  destruct (close_live w p fw Hp Hfw) as (w' & Hrun & _ & Htr).
  unfold new_calls. rewrite Hrun, Htr, drop_app_length. reflexivity.
Qed.

(** The calls of [watch] on any live watcher: the kernel call, and no
    lock. *)
Lemma watch_calls env w p fw path_str s :
  p <> 0 ->
  heap w !! p = Some fw ->
  GetStringUTFChars env path_str = Some s ->
  exists wd,
    new_calls (watch env p path_str) w
    = Some [a_inotify_add_watch (inotify_fd fw) s 962 wd].
Proof.
  intros Hp Hfw Hs.
  destruct (watch_live env w p fw path_str Hp Hfw) as (w' & r & Hrun & Htr).
  rewrite Hs in Hrun.
  destruct Htr as (s' & wd & Hs' & Htr); [congruence|].
  rewrite Hs in Hs'. injection Hs' as <-.
  exists wd. unfold new_calls. rewrite Hrun, Htr, drop_app_length. reflexivity.
Qed.

(** C8, on the code: on the watcher at 4096 (descriptor 3), [watch]
    calls the kernel, [close] calls the kernel and overwrites the
    descriptor field, and [unwatch] returns, none of them locking the
    mutex; [nextEvent] is the only entry point that locks and unlocks. *)
Theorem only_nextEvent_takes_the_lock :
  new_calls (watch jvm 4096 (str "/tmp/x")) watching
    = Some [a_inotify_add_watch 3 (str "/tmp/x") 962 1]
  /\ new_calls (unwatch jvm 4096 (str "/tmp/x")) watching = Some []
  /\ new_calls (close 4096) watching = Some [a_close 3]
  /\ existsb is_lock <$> new_calls (watch jvm 4096 (str "/tmp/x")) watching
     = Some false
  /\ existsb is_lock <$> new_calls (close 4096) watching = Some false
  /\ inotify_fd <$> heap (world_of (close 4096 watching) watching) !! 4096
     = Some (-1)
  /\ new_calls (nextEvent jvm 4096) watching
     = Some [a_mutex_lock 4096; a_read 3 (-1); a_mutex_unlock 4096].
Proof. repeat apply conj; vm_compute; reflexivity. Qed.

(** ** [unwatch] *)

Lemma unwatch_noop env p path_str w : unwatch env p path_str w = Done tt w.
Proof. unfold unwatch. destruct (p =? 0); reflexivity. Qed.

(** C1, on the code: [watch("/tmp/x")] registers watch descriptor 1 with
    the kernel; [unwatch("/tmp/x")] returns without a call and leaves the
    process and the kernel as they were, so the registration is still
    there and a later creation in the directory still produces an
    event. *)
Theorem unwatch_keeps_kernel_registration :
  registrations (kernel watching) 3 (str "/tmp/x") = [1]
  /\ unwatch jvm 4096 (str "/tmp/x") watching = Done tt watching
  /\ new_calls (unwatch jvm 4096 (str "/tmp/x")) watching = Some []
  /\ registrations (kernel unwatched) 3 (str "/tmp/x") = [1]
  /\ value_of (nextEvent jvm 4096
                 (with_kernel (created_foo (kernel unwatched)) unwatched))
     = Some (Some {| kind := CREATED; path := str "/foo.txt" |}).
Proof.
  split; [vm_compute; reflexivity|].
  split; [apply unwatch_noop|].
  repeat apply conj; vm_compute; reflexivity.
Qed.

(** ** The delivered path *)

(** [create_event_object] itself joins the base path it is given with the
    name, as long as the result fits its 1024-byte array. *)
Lemma full_path_of_join (base nm : bytes) (n : Z) :
  n > 0 ->
  (length (base ++ str "/" ++ nm) <= FULL_PATH_MAX)%nat ->
  full_path_of base n nm = base ++ str "/" ++ nm.
Proof.
  intros Hn Hfit. unfold full_path_of.
  destruct (Z.gtb_spec n 0); [|lia]. apply take_ge. exact Hfit.
Qed.

Lemma full_path_of_no_name (base nm : bytes) :
  (length base <= FULL_PATH_MAX)%nat -> full_path_of base 0 nm = base.
Proof. intros Hfit. unfold full_path_of. cbn. apply take_ge. exact Hfit. Qed.

(** C2, on the code: [nextEvent] passes the empty string as base path.
    With "/tmp/x" watched, the creation of "foo.txt" in it is delivered
    with path "/foo.txt", not "/tmp/x/foo.txt", and an event without a
    name is delivered with the empty path, not "/tmp/x". *)
Theorem delivered_path_lacks_watched_directory :
  value_of (nextEvent jvm 4096
              (with_kernel (created_foo (kernel watching)) watching))
    = Some (Some {| kind := CREATED; path := str "/foo.txt" |})
  /\ str "/foo.txt" <> str "/tmp/x/foo.txt"
  /\ value_of (nextEvent jvm 4096
                 (with_kernel
                    (fs_change (str "/tmp/x") IN_IGNORED None (kernel watching))
                    watching))
     = Some (Some {| kind := MODIFIED; path := [] |})
  /\ full_path_of (str "/tmp/x") 16 (str "foo.txt") = str "/tmp/x/foo.txt".
Proof.
  split; [vm_compute; reflexivity|].
  split; [intros H; vm_compute in H; discriminate|].
  split; vm_compute; reflexivity.
Qed.

(** ** The debug toggle *)

Lemma prefix_zero (s : string) :
  String.prefix "0" s = Ascii.eqb (JniHelpers.first_char s) "0"%char.
Proof.
  destruct s as [|c s]; [reflexivity|].
  cbn [String.prefix JniHelpers.first_char].
  destruct (ascii_dec "0" c) as [E|Hne].
  - rewrite <- E, Ascii.eqb_refl. destruct s; reflexivity.
  - destruct (Ascii.eqb_spec c "0"%char); [congruence | reflexivity].
Qed.

(** C9 fails: with the variable unset the toggle is off and [debug_log]
    writes nothing. *)
Lemma debug_off_when_unset :
  fst (JniHelpers.is_debug_enabled JniHelpers.unset JniHelpers.start) = 0
  /\ fst (JniHelpers.debug_log JniHelpers.unset "watching" JniHelpers.start) = [].
Proof. split; reflexivity. Qed.

(** C9, amended: the variable is read on the first use only, and the
    toggle is on exactly when the variable is set to a value that does not
    begin with the character 0 (the empty value included); with the
    variable unset it is off.  Later uses return the cached value without
    reading the environment, whatever it has become. *)
Theorem debug_toggle_read_once (getenv getenv' : string -> option string) :
  let r := JniHelpers.is_debug_enabled getenv JniHelpers.start in
  fst r = match getenv "FILEWATCHER_DEBUG"%string with
          | None => 0
          | Some s => if String.prefix "0" s then 0 else 1
          end
  /\ JniHelpers.getenv_calls (snd r) = 1%nat
  /\ JniHelpers.is_debug_enabled getenv' (snd r) = r.
Proof.
  unfold JniHelpers.is_debug_enabled. cbn.
  destruct (getenv "FILEWATCHER_DEBUG"%string) as [s|]; cbn.
  - rewrite prefix_zero.
    destruct (Ascii.eqb (JniHelpers.first_char s) "0"); cbn;
      repeat apply conj; reflexivity.
  - repeat apply conj; reflexivity.
Qed.

(** * Further properties of the code *)

(** ** Classification and path, beyond the claims *)

(** X1: bits outside the six that [create_event_object] tests (the
    directory flag IN_ISDIR, for instance) never change the kind. *)
Theorem other_bits_do_not_change_kind (m x : Z) :
  recognised_bit x = false ->
  event_kind_of (Z.lor m x) = event_kind_of m.
Proof.
  unfold recognised_bit. intros H.
  repeat (apply orb_false_elim in H; destruct H as [H ?]).
  unfold creation_bit, deletion_bit, modification_bit, overflow_bit in *.
  repeat match goal with
         | H : _ || _ = false |- _ => apply orb_false_elim in H; destruct H
         end.
  rewrite !event_kind_of_bits.
  unfold creation_bit, deletion_bit, modification_bit, overflow_bit.
  rewrite !Z.lor_spec.
  repeat match goal with
         | H : Z.testbit x _ = false |- _ => rewrite H; clear H
         end.
  rewrite !orb_false_r. reflexivity.
Qed.

Lemma other_bits_do_not_change_kind_witness :
  event_kind_of (Z.lor IN_DELETE 0x40000000) = event_kind_of IN_DELETE.
Proof.
  apply (other_bits_do_not_change_kind IN_DELETE 0x40000000). reflexivity.
Defined.



(** X3: for a well-formed record in memory, [create_event_object] joins
    the base path it is given with the record's name (up to the first
    NUL) by a slash, and returns the base path alone for a record without
    a name, provided the result fits the 1023 bytes. *)
Theorem create_event_object_joins_base (pre rest base : bytes) (ev : inotify_event) :
  wf_event ev = true ->
  (length (base ++ str "/" ++ until_nul (name ev)) <= 1023)%nat ->
  create_event_object jvm (pre ++ encode_event ev ++ rest)
    (Z.of_nat (length pre)) base
  = Some (Some {| kind := event_kind_of (mask ev);
                  path := if len ev >? 0
                          then base ++ str "/" ++ until_nul (name ev)
                          else base |}).
Proof.
  intros Hwf Hfit.
  rewrite create_event_object_record by exact Hwf.
  cbn [NewStringUTF NewObject jvm]. do 3 f_equal.
  unfold full_path_of, FULL_PATH_MAX.
  destruct (len ev >? 0).
  - apply take_ge. exact Hfit.
  - apply take_ge. rewrite length_app in Hfit. lia.
Qed.

Lemma create_event_object_joins_base_witness :
  create_event_object jvm ([] ++ encode_event ev_created ++ [])
    (Z.of_nat (length (@nil Z))) (str "/tmp/x")
  = Some (Some {| kind := event_kind_of (mask ev_created);
                  path := if len ev_created >? 0
                          then str "/tmp/x" ++ str "/" ++ until_nul (name ev_created)
                          else str "/tmp/x" |}).
Proof.
  apply (create_event_object_joins_base [] [] (str "/tmp/x") ev_created).
  - reflexivity.
  - vm_compute. lia.
Defined.

(** ** The JNI cache *)

(** X4: when [init_jni_cache] starts with [event_class] NULL and returns
    1, all seven cached references and ids are set. *)
Theorem init_success_fills_cache (vm : JniCache.VM) c t c' t' :
  JniCache.event_class c = None ->
  JniCache.init_jni_cache vm (c, t) = Done 1 (c', t') ->
  JniCache.complete c' = true.
Proof.
  intros Hcold H. unfold JniCache.init_jni_cache in H.
  rewrite Hcold in H. cbn [JniCache.is_null negb] in H.
  destruct (JniCache.FindClass vm JniCache.EVENT) as [l1|]; [|discriminate].
  cbn [JniCache.event_class JniCache.set_event_class] in H.
  destruct (JniCache.NewGlobalRef vm l1) as [g1|]; [|discriminate].
  cbn [JniCache.event_constructor JniCache.set_event_constructor] in H.
  destruct (JniCache.GetMethodID vm g1 "<init>" JniCache.CTOR_SIG) as [ctor|];
    [|discriminate].
  cbn [JniCache.is_null] in H.
  destruct (JniCache.FindClass vm JniCache.EVENTKIND) as [l2|]; [|discriminate].
  cbn [JniCache.eventkind_class JniCache.set_eventkind_class] in H.
  destruct (JniCache.NewGlobalRef vm l2) as [g2|]; [|discriminate].
  cbn [JniCache.created_field JniCache.modified_field JniCache.deleted_field
       JniCache.overflow_field JniCache.set_fields] in H.
  destruct (JniCache.GetStaticFieldID vm g2 "CREATED" JniCache.KIND_SIG);
    [|discriminate].
  destruct (JniCache.GetStaticFieldID vm g2 "MODIFIED" JniCache.KIND_SIG);
    [|discriminate].
  destruct (JniCache.GetStaticFieldID vm g2 "DELETED" JniCache.KIND_SIG);
    [|discriminate].
  destruct (JniCache.GetStaticFieldID vm g2 "OVERFLOW" JniCache.KIND_SIG);
    [|discriminate].
  cbn [JniCache.is_null orb] in H. injection H as <- _. reflexivity.
Qed.

Lemma init_success_fills_cache_witness :
  JniCache.complete
    {| JniCache.event_class := Some 11; JniCache.event_constructor := Some 30;
       JniCache.eventkind_class := Some 21; JniCache.created_field := Some 7;
       JniCache.modified_field := Some 8; JniCache.deleted_field := Some 7;
       JniCache.overflow_field := Some 8 |} = true.
Proof.
  apply (init_success_fills_cache JniCache.vm_ok JniCache.cold [] _
           [JniCache.c_FindClass JniCache.EVENT; JniCache.c_NewGlobalRef 10;
            JniCache.c_DeleteLocalRef 10;
            JniCache.c_GetMethodID 11 "<init>" JniCache.CTOR_SIG;
            JniCache.c_FindClass JniCache.EVENTKIND; JniCache.c_NewGlobalRef 20;
            JniCache.c_DeleteLocalRef 20;
            JniCache.c_GetStaticFieldID 21 "CREATED" JniCache.KIND_SIG;
            JniCache.c_GetStaticFieldID 21 "MODIFIED" JniCache.KIND_SIG;
            JniCache.c_GetStaticFieldID 21 "DELETED" JniCache.KIND_SIG;
            JniCache.c_GetStaticFieldID 21 "OVERFLOW" JniCache.KIND_SIG]).
  - reflexivity.
  - vm_compute. reflexivity.
Defined.

(** X5: the cache counts as initialised as soon as [event_class] is set.
    If the first [init_jni_cache] finds the [Event] class but not its
    constructor, it returns 0 and leaves [event_class] set; every later
    call then returns 1 without looking anything up, although the
    constructor id (and the rest of the cache) is still NULL. *)
Theorem half_filled_cache_is_reported_ready (vm vm' : JniCache.VM) t (l g : Z) :
  JniCache.FindClass vm JniCache.EVENT = Some l ->
  JniCache.NewGlobalRef vm l = Some g ->
  JniCache.GetMethodID vm g "<init>" JniCache.CTOR_SIG = None ->
  exists c' t',
    JniCache.init_jni_cache vm (JniCache.cold, t) = Done 0 (c', t')
    /\ JniCache.event_constructor c' = None
    /\ JniCache.complete c' = false
    /\ forall t'', JniCache.init_jni_cache vm' (c', t'') = Done 1 (c', t'').
Proof.
  intros Hf Hg Hm. unfold JniCache.init_jni_cache.
  cbn [JniCache.cold JniCache.event_class JniCache.is_null negb].
  rewrite Hf. cbn [JniCache.event_class JniCache.set_event_class]. rewrite Hg.
  cbn [JniCache.event_constructor JniCache.set_event_constructor].
  rewrite Hm. cbn [JniCache.is_null].
  eexists _, _. split; [reflexivity|]. repeat apply conj; try reflexivity.
Qed.

Lemma half_filled_cache_is_reported_ready_witness :
  exists c' t',
    JniCache.init_jni_cache JniCache.vm_no_ctor (JniCache.cold, []) = Done 0 (c', t')
    /\ JniCache.event_constructor c' = None
    /\ JniCache.complete c' = false
    /\ forall t'', JniCache.init_jni_cache JniCache.vm_ok (c', t'') = Done 1 (c', t'').
Proof.
  apply (half_filled_cache_is_reported_ready JniCache.vm_no_ctor JniCache.vm_ok
           [] 10 11); reflexivity.
Defined.

(** X6: [JNI_OnUnload], when it obtains the environment, deletes the two
    global class references it holds, each once, and sets them to NULL;
    the constructor id and the four field ids stay as they were.  Running
    it again changes nothing. *)
Theorem unload_clears_class_references (vm : JniCache.VM) c t :
  JniCache.GetEnv vm = true ->
  let st' := JniCache.JNI_OnUnload vm (c, t) in
  JniCache.event_class (fst st') = None
  /\ JniCache.eventkind_class (fst st') = None
  /\ JniCache.event_constructor (fst st') = JniCache.event_constructor c
  /\ JniCache.created_field (fst st') = JniCache.created_field c
  /\ JniCache.modified_field (fst st') = JniCache.modified_field c
  /\ JniCache.deleted_field (fst st') = JniCache.deleted_field c
  /\ JniCache.overflow_field (fst st') = JniCache.overflow_field c
  /\ snd st' = t ++ match JniCache.event_class c with
                    | Some r => [JniCache.c_DeleteGlobalRef r]
                    | None => []
                    end
                 ++ match JniCache.eventkind_class c with
                    | Some r => [JniCache.c_DeleteGlobalRef r]
                    | None => []
                    end
  /\ JniCache.JNI_OnUnload vm st' = st'.
Proof.
  intros Henv. unfold JniCache.JNI_OnUnload. rewrite Henv.
  destruct c as [ec ctor kc f1 f2 f3 f4].
  destruct ec as [r1|]; destruct kc as [r2|]; cbn; rewrite ?Henv;
    repeat apply conj; rewrite <- ?app_assoc, ?app_nil_r; reflexivity.
Qed.

Lemma unload_clears_class_references_witness :
  let c := {| JniCache.event_class := Some 11;
              JniCache.event_constructor := Some 30;
              JniCache.eventkind_class := Some 21;
              JniCache.created_field := Some 41;
              JniCache.modified_field := Some 42;
              JniCache.deleted_field := Some 43;
              JniCache.overflow_field := Some 44 |} in
  let st' := JniCache.JNI_OnUnload JniCache.vm_ok (c, []) in
  JniCache.event_class (fst st') = None
  /\ JniCache.eventkind_class (fst st') = None
  /\ JniCache.event_constructor (fst st') = JniCache.event_constructor c
  /\ JniCache.created_field (fst st') = JniCache.created_field c
  /\ JniCache.modified_field (fst st') = JniCache.modified_field c
  /\ JniCache.deleted_field (fst st') = JniCache.deleted_field c
  /\ JniCache.overflow_field (fst st') = JniCache.overflow_field c
  /\ snd st' = [] ++ match JniCache.event_class c with
                     | Some r => [JniCache.c_DeleteGlobalRef r]
                     | None => []
                     end
                  ++ match JniCache.eventkind_class c with
                     | Some r => [JniCache.c_DeleteGlobalRef r]
                     | None => []
                     end
  /\ JniCache.JNI_OnUnload JniCache.vm_ok st' = st'.
Proof.
  intros c.
  apply (unload_clears_class_references JniCache.vm_ok c []).
  reflexivity.
Defined.

(** ** Logging helpers *)

(** X7: [check_jni_exception] returns 1 exactly when an exception is
    pending, and then writes the error line (whatever the debug toggle)
    and clears the exception; without one it returns 0, writes nothing and
    leaves the thread alone.  A second check right after always returns 0
    and writes nothing. *)
Theorem check_jni_exception_clears (th : JniLog.Thread) (context context' : string) :
  let '(r, th', out) := JniLog.check_jni_exception th context in
  (r = 1 <-> JniLog.pending_exception th <> None)
  /\ (r = 0 \/ r = 1)
  /\ (r = 1 -> head out = Some ("[FileWatcher ERROR] JNI exception in " ++ context)%string)
  /\ (r = 0 -> out = [] /\ th' = th)
  /\ JniLog.pending_exception th' = None
  /\ JniLog.check_jni_exception th' context' = (0, th', []).
Proof.
  unfold JniLog.check_jni_exception.
  destruct th as [[d|]]; cbn.
  - repeat apply conj; try reflexivity; try (right; reflexivity);
      try (intros; discriminate); intros; congruence.
  - repeat apply conj; try reflexivity; try (left; reflexivity);
      try (intros; discriminate); try (intros; congruence).
    intros _. split; reflexivity.
Qed.

Lemma debug_logs_latched (v : Z) (n : nat)
    (calls : list ((string -> option string) * string)) :
  v <> -1 ->
  JniLog.debug_logs calls
    {| JniHelpers.debug_enabled := v; JniHelpers.getenv_calls := n |}
  = (if v =? 0 then []
     else (fun c => ("[FileWatcher DEBUG] " ++ snd c)%string) <$> calls,
     {| JniHelpers.debug_enabled := v; JniHelpers.getenv_calls := n |}).
Proof.
  intros Hv. induction calls as [|[ge msg] calls IH].
  - cbn. destruct (v =? 0); reflexivity.
  - cbn [JniLog.debug_logs]. unfold JniHelpers.debug_log, JniHelpers.is_debug_enabled.
    cbn [JniHelpers.debug_enabled].
    destruct (Z.eqb_spec v (-1)); [contradiction|].
    destruct (v =? 0) eqn:E; rewrite IH; cbn; rewrite ?E; reflexivity.
Qed.

(** X8: a run of [debug_log] calls writes either every message, each with
    the fixed prefix, or none: the environment of the first call decides,
    and the environments of the later calls are never read. *)
Theorem debug_logs_all_or_nothing
    (getenv : string -> option string) (msg : string)
    (calls : list ((string -> option string) * string)) :
  let '(out, st) := JniLog.debug_logs ((getenv, msg) :: calls) JniHelpers.start in
  out = (if fst (JniHelpers.is_debug_enabled getenv JniHelpers.start) =? 0
         then []
         else (fun c => ("[FileWatcher DEBUG] " ++ snd c)%string)
                <$> ((getenv, msg) :: calls))
  /\ JniHelpers.getenv_calls st = 1%nat.
Proof.
  cbn [JniLog.debug_logs]. unfold JniHelpers.debug_log.
  unfold JniHelpers.is_debug_enabled at 1 2. cbn [JniHelpers.start JniHelpers.debug_enabled Z.eqb JniHelpers.getenv_calls fst].
  set (v := match getenv "FILEWATCHER_DEBUG"%string with
            | Some s => if Ascii.eqb (JniHelpers.first_char s) "0" then 0 else 1
            | None => 0
            end).
  assert (Hv : v <> -1).
  { subst v. destruct (getenv _) as [s|]; [destruct (Ascii.eqb _ _)|]; lia. }
  cbn [Pos.eqb fst].
  destruct (v =? 0) eqn:E; cbn iota beta;
    rewrite (debug_logs_latched v 1 calls Hv), E; cbn; split; reflexivity.
Qed.

Lemma check_jni_exception_clears_witness :
  let '(r, th', out) :=
    JniLog.check_jni_exception
      {| JniLog.pending_exception := Some "java.lang.OutOfMemoryError"%string |}
      "nextEvent" in
  (r = 1 <-> JniLog.pending_exception
               {| JniLog.pending_exception :=
                    Some "java.lang.OutOfMemoryError"%string |} <> None)
  /\ (r = 0 \/ r = 1)
  /\ (r = 1 -> head out = Some ("[FileWatcher ERROR] JNI exception in " ++ "nextEvent")%string)
  /\ (r = 0 -> out = []
               /\ th' = {| JniLog.pending_exception :=
                             Some "java.lang.OutOfMemoryError"%string |})
  /\ JniLog.pending_exception th' = None
  /\ JniLog.check_jni_exception th' "watch" = (0, th', []).
Proof.
  exact (check_jni_exception_clears
           {| JniLog.pending_exception := Some "java.lang.OutOfMemoryError"%string |}
           "nextEvent" "watch").
Defined.

(** ** [create] *)

Ltac run_libc :=
  unfold malloc, free, pthread_mutex_init, pthread_mutex_destroy, inotify_init1,
    close_fd, init_jni_cache.

Ltac run_all tac :=
  repeat (progress (run_libc; unfold sys_close, lookup_fd, sys_inotify_init1;
                    run_step; cbn [negb fds set_fds]; tac)).

(** What a successful [create] leaves. *)
Lemma create_explicit env w :
  0 < next_addr w < heap_limit w ->
  0 <= next_fd (kernel w) < fd_limit (kernel w) ->
  jni_cache w = true \/ FindClasses env = true ->
  exists w',
    create env w = Done (next_addr w) w'
    /\ heap w' = <[next_addr w := fresh_watcher (next_fd (kernel w))]> (heap w)
    /\ fds (kernel w')
       = <[next_fd (kernel w) := {| watches := []; next_wd := 1; queue := [] |}]>
           (fds (kernel w))
    /\ jni_cache w' = true
    /\ trace w' = trace w ++ [a_malloc (next_addr w);
                              a_inotify_init1 (next_fd (kernel w));
                              a_mutex_init (next_addr w)].
Proof.
  intros [Ha1 Ha2] [Hf1 Hf2] Hjni. unfold create. run_libc.
  unfold sys_inotify_init1.
  assert (E1 : (0 <? next_addr w) && (next_addr w <? heap_limit w) = true).
  { apply andb_true_intro. split; [apply Z.ltb_lt | apply Z.ltb_lt]; lia. }
  assert (E2 : (0 <=? next_fd (kernel w)) && (next_fd (kernel w) <? fd_limit (kernel w)) = true).
  { apply andb_true_intro. split; [apply Z.leb_le | apply Z.ltb_lt]; lia. }
  assert (E3 : (next_addr w =? 0) = false) by (apply Z.eqb_neq; lia).
  assert (E4 : (next_fd (kernel w) =? -1) = false) by (apply Z.eqb_neq; lia).
  run_using ltac:(rewrite ?E1, ?E2, ?E3, ?E4).
  destruct (jni_cache w) eqn:Hc.
  - run_using idtac. eexists. split; [reflexivity|].
    cbn [heap kernel jni_cache trace fds]. rewrite <- !app_assoc.
    repeat apply conj; reflexivity.
  - destruct Hjni as [Hjni|Hjni]; [discriminate|]. rewrite Hjni.
    run_using idtac. eexists. split; [reflexivity|].
    cbn [heap kernel jni_cache trace fds]. rewrite <- !app_assoc.
    repeat apply conj; reflexivity.
Qed.



Ltac run_j tac :=
  repeat (progress (unfold WithCache.create, WithCache.bindJ, WithCache.in_world,
                      WithCache.in_cache, WithCache.retJ;
                    cbn [fst snd];
                    run_libc; unfold sys_close, lookup_fd, sys_inotify_init1;
                    run_step; cbn [negb fds set_fds fst snd]; tac)).



(** Where [init_jni_cache] succeeds, [create] with the cache in full does
    to the heap, the kernel and the trace what [create] with the flag
    does. *)
Lemma full_create_agrees_on_success env (vm : JniCache.VM) w st ok st' :
  0 < next_addr w < heap_limit w ->
  0 <= next_fd (kernel w) < fd_limit (kernel w) ->
  jni_cache w = true \/ FindClasses env = true ->
  JniCache.init_jni_cache vm st = Done ok st' ->
  ok <> 0 ->
  exists w1 w2,
    create env w = Done (next_addr w) w1
    /\ WithCache.create vm (w, st) = Done (next_addr w) (w2, st')
    /\ heap w2 = heap w1
    /\ fds (kernel w2) = fds (kernel w1)
    /\ trace w2 = trace w1.
Proof.
  intros Ha Hf Hjni Hinit Hok.
  destruct (create_explicit env w Ha Hf Hjni) as (w1 & Hrun & Hh & Hk & _ & Ht).
  exists w1.
  assert (E1 : (0 <? next_addr w) && (next_addr w <? heap_limit w) = true).
  { apply andb_true_intro. split; apply Z.ltb_lt; lia. }
  assert (E2 : (0 <=? next_fd (kernel w)) && (next_fd (kernel w) <? fd_limit (kernel w)) = true).
  { apply andb_true_intro. split; [apply Z.leb_le | apply Z.ltb_lt]; lia. }
  assert (E3 : (next_addr w =? 0) = false) by (apply Z.eqb_neq; lia).
  assert (E4 : (next_fd (kernel w) =? -1) = false) by (apply Z.eqb_neq; lia).
  assert (E5 : (ok =? 0) = false) by (apply Z.eqb_neq; exact Hok).
  run_j ltac:(rewrite ?E1, ?E2, ?E3, ?E4, ?E5, ?Hinit).
  eexists. split; [exact Hrun|]. split; [reflexivity|].
  cbn [heap kernel trace fds]. rewrite Hh, Hk, Ht, <- !app_assoc.
  repeat apply conj; reflexivity.
Qed.

(** ** [close] and [destroy] *)

Lemma close_explicit w p fw :
  p <> 0 ->
  heap w !! p = Some fw ->
  close p w = Done tt (after_close p fw w).
Proof.
  intros Hp Hfw. unfold close, close_fd.
  destruct (Z.eqb_spec p 0); [contradiction|].
  run_using ltac:(rewrite ?Hfw). reflexivity.
Qed.

Lemma sys_close_bad_fd k fd : fd < 0 -> sys_close k fd = k.
Proof.
  intros H. unfold sys_close, lookup_fd.
  destruct (Z.ltb_spec fd 0); [reflexivity | lia].
Qed.

(** X11: a second [close] changes neither the watcher nor the kernel: it
    only repeats the system call on descriptor -1. *)
Theorem second_close_changes_nothing w p fw :
  p <> 0 ->
  heap w !! p = Some fw ->
  exists w1 w2,
    close p w = Done tt w1
    /\ close p w1 = Done tt w2
    /\ heap w2 = heap w1
    /\ kernel w2 = kernel w1
    /\ trace w2 = trace w1 ++ [a_close (-1)].
Proof.
  intros Hp Hfw.
  exists (after_close p fw w).
  exists (after_close p (set_inotify_fd (-1) fw) (after_close p fw w)).
  split; [apply close_explicit; assumption|].
  split.
  { apply close_explicit; [assumption|].
    unfold after_close. cbn [heap]. apply lookup_insert_eq. }
  unfold after_close. cbn [heap kernel trace inotify_fd set_inotify_fd].
  repeat apply conj.
  - rewrite insert_insert_eq. reflexivity.
  - apply sys_close_bad_fd. lia.
  - reflexivity.
Qed.

Lemma second_close_changes_nothing_witness :
  exists w1 w2,
    close 4096 (world_with (watcher_with [] 0 0)) = Done tt w1
    /\ close 4096 w1 = Done tt w2
    /\ heap w2 = heap w1
    /\ kernel w2 = kernel w1
    /\ trace w2 = trace w1 ++ [a_close (-1)].
Proof.
  apply (second_close_changes_nothing (world_with (watcher_with [] 0 0)) 4096
           (watcher_with [] 0 0)).
  - lia.
  - apply lookup_singleton_eq.
Defined.

Lemma destroy_explicit w p fw :
  p <> 0 ->
  heap w !! p = Some fw ->
  mutex_locked fw = false ->
  destroy p w =
    Done tt {| heap := delete p (heap w);
               next_addr := next_addr w; heap_limit := heap_limit w;
               jni_cache := jni_cache w;
               kernel := if inotify_fd fw >=? 0
                         then sys_close (kernel w) (inotify_fd fw)
                         else kernel w;
               trace := trace w
                        ++ (if inotify_fd fw >=? 0
                            then [a_close (inotify_fd fw)] else [])
                        ++ [a_mutex_destroy p; a_free p] |}.
Proof.
  intros Hp Hfw Hm. unfold destroy.
  destruct (Z.eqb_spec p 0); [contradiction|].
  unfold pthread_mutex_destroy, free, close_fd.
  destruct (inotify_fd fw >=? 0) eqn:Hfd;
    run_using ltac:(rewrite ?Hfw, ?Hfd, ?Hm);
    rewrite <- ?app_assoc; reflexivity.
Qed.

(** X12: [destroy] closes the descriptor only if [close] has not: after
    [close], [destroy] makes no system call, and the heap and the kernel
    end up as after [destroy] alone. *)
Theorem destroy_closes_unless_closed w p fw :
  p <> 0 ->
  heap w !! p = Some fw ->
  mutex_locked fw = false ->
  0 <= inotify_fd fw ->
  exists w1 w2 w3,
    close p w = Done tt w1
    /\ destroy p w1 = Done tt w2
    /\ destroy p w = Done tt w3
    /\ new_calls (destroy p) w1 = Some [a_mutex_destroy p; a_free p]
    /\ new_calls (destroy p) w
       = Some [a_close (inotify_fd fw); a_mutex_destroy p; a_free p]
    /\ heap w2 = heap w3
    /\ heap w3 = delete p (heap w)
    /\ kernel w2 = kernel w3.
Proof.
  intros Hp Hfw Hm Hfd.
  assert (Hfw1 : heap (after_close p fw w) !! p = Some (set_inotify_fd (-1) fw)).
  { unfold after_close. cbn [heap]. apply lookup_insert_eq. }
  pose proof (destroy_explicit _ p _ Hp Hfw1 Hm) as Hd1.
  pose proof (destroy_explicit w p fw Hp Hfw Hm) as Hd.
  cbn [inotify_fd set_inotify_fd] in Hd1.
  change (-1 >=? 0) with false in Hd1.
  assert (Hge : (inotify_fd fw >=? 0) = true)
    by (rewrite Z.geb_leb; apply Z.leb_le; lia).
  rewrite Hge in Hd.
  exists (after_close p fw w). eexists _, _.
  split; [apply close_explicit; assumption|].
  split; [exact Hd1|]. split; [exact Hd|].
  unfold new_calls. rewrite Hd1, Hd. cbn [trace heap kernel after_close].
  rewrite !drop_app_length.
  repeat apply conj; try reflexivity.
  apply delete_insert_eq.
Qed.

Lemma destroy_closes_unless_closed_witness :
  exists w1 w2 w3,
    close 4096 (world_with (watcher_with [] 0 0)) = Done tt w1
    /\ destroy 4096 w1 = Done tt w2
    /\ destroy 4096 (world_with (watcher_with [] 0 0)) = Done tt w3
    /\ new_calls (destroy 4096) w1 = Some [a_mutex_destroy 4096; a_free 4096]
    /\ new_calls (destroy 4096) (world_with (watcher_with [] 0 0))
       = Some [a_close (inotify_fd (watcher_with [] 0 0));
               a_mutex_destroy 4096; a_free 4096]
    /\ heap w2 = heap w3
    /\ heap w3 = delete 4096 (heap (world_with (watcher_with [] 0 0)))
    /\ kernel w2 = kernel w3.
Proof.
  apply (destroy_closes_unless_closed (world_with (watcher_with [] 0 0)) 4096
           (watcher_with [] 0 0)).
  - lia.
  - apply lookup_singleton_eq.
  - reflexivity.
  - vm_compute. discriminate.
Defined.

Lemma lookup_fd_close_other k fd fd' :
  fd' <> fd -> lookup_fd (sys_close k fd) fd' = lookup_fd k fd'.
Proof.
  intros Hne. unfold sys_close.
  destruct (lookup_fd k fd); [|reflexivity].
  unfold lookup_fd. cbn [fds set_fds].
  destruct (fd' <? 0); [reflexivity|]. apply lookup_delete_ne. congruence.
Qed.

(** X13: [close] ends this watcher's registrations and drops its unread
    kernel queue, and touches nothing else: the descriptors of other
    watchers and the other watcher structures are as before. *)
Theorem close_releases_only_its_own w p fw :
  p <> 0 ->
  heap w !! p = Some fw ->
  exists w',
    close p w = Done tt w'
    /\ (forall pth, registrations (kernel w') (inotify_fd fw) pth = [])
    /\ pending (kernel w') (inotify_fd fw) = []
    /\ (forall fd', fd' <> inotify_fd fw ->
                    lookup_fd (kernel w') fd' = lookup_fd (kernel w) fd')
    /\ (forall q, q <> p -> heap w' !! q = heap w !! q).
Proof.
  intros Hp Hfw. exists (after_close p fw w).
  split; [apply close_explicit; assumption|].
  unfold after_close, registrations, pending. cbn [heap kernel].
  rewrite lookup_fd_closed. repeat apply conj; try reflexivity.
  - intros fd' Hne. apply lookup_fd_close_other. exact Hne.
  - intros q Hq. apply lookup_insert_ne. congruence.
Qed.

Lemma close_releases_only_its_own_witness :
  exists w',
    close 4096 (world_with (watcher_with [] 0 0)) = Done tt w'
    /\ (forall pth,
          registrations (kernel w') (inotify_fd (watcher_with [] 0 0)) pth = [])
    /\ pending (kernel w') (inotify_fd (watcher_with [] 0 0)) = []
    /\ (forall fd', fd' <> inotify_fd (watcher_with [] 0 0) ->
                    lookup_fd (kernel w') fd'
                    = lookup_fd (kernel (world_with (watcher_with [] 0 0))) fd')
    /\ (forall q, q <> 4096 ->
                  heap w' !! q = heap (world_with (watcher_with [] 0 0)) !! q).
Proof.
  apply (close_releases_only_its_own (world_with (watcher_with [] 0 0)) 4096
           (watcher_with [] 0 0)).
  - lia.
  - apply lookup_singleton_eq.
Defined.

(** ** [watch] *)

Lemma sys_inotify_add_watch_bad_fd k fd pth m :
  fd < 0 -> sys_inotify_add_watch k fd pth m = (-1, k).
Proof.
  intros H. unfold sys_inotify_add_watch, lookup_fd.
  destruct (Z.ltb_spec fd 0); [reflexivity | lia].
Qed.

(** X14: after [close], [watch] returns false for every path and
    registers nothing: the watcher and the kernel stay as [close] left
    them. *)
Theorem watch_after_close_fails env w p fw pth :
  p <> 0 ->
  heap w !! p = Some fw ->
  exists w1 w2,
    close p w = Done tt w1
    /\ watch env p pth w1 = Done false w2
    /\ heap w2 = heap w1
    /\ kernel w2 = kernel w1.
Proof.
  intros Hp Hfw. exists (after_close p fw w).
  assert (Hfw1 : heap (after_close p fw w) !! p = Some (set_inotify_fd (-1) fw)).
  { unfold after_close. cbn [heap]. apply lookup_insert_eq. }
  unfold watch. destruct (Z.eqb_spec p 0); [contradiction|].
  destruct (GetStringUTFChars env pth) as [s|].
  - unfold inotify_add_watch.
    run_using ltac:(rewrite ?Hfw1).
    cbn [inotify_fd set_inotify_fd].
    rewrite sys_inotify_add_watch_bad_fd by lia.
    run_using idtac.
    eexists. split; [apply close_explicit; assumption|].
    split; [reflexivity|]. split; reflexivity.
  - exists (after_close p fw w).
    split; [apply close_explicit; assumption|].
    repeat apply conj; reflexivity.
Qed.

Lemma watch_after_close_fails_witness :
  exists w1 w2,
    close 4096 (world_with (watcher_with [] 0 0)) = Done tt w1
    /\ watch jvm 4096 (str "/tmp/x") w1 = Done false w2
    /\ heap w2 = heap w1
    /\ kernel w2 = kernel w1.
Proof.
  apply (watch_after_close_fails jvm (world_with (watcher_with [] 0 0)) 4096
           (watcher_with [] 0 0) (str "/tmp/x")).
  - lia.
  - apply lookup_singleton_eq.
Defined.

(** X15: [watch] hands the decision to the kernel.  It makes one call,
    [inotify_add_watch] on the watcher's descriptor for the given path
    with the mask IN_CREATE | IN_DELETE | IN_MODIFY | IN_MOVED_FROM |
    IN_MOVED_TO, and returns true exactly when that call returned a
    non-negative watch descriptor, for whatever reason the kernel accepts
    or refuses.  It does not change the watcher and does not keep the
    descriptor.  When the path string cannot be obtained it returns false
    without a call. *)
Theorem watch_reports_kernel_answer env w p fw pth :
  p <> 0 ->
  heap w !! p = Some fw ->
  match GetStringUTFChars env pth with
  | None => watch env p pth w = Done false w
  | Some s =>
      let answer :=
        sys_inotify_add_watch (kernel w) (inotify_fd fw) s
          (IN_CREATE + IN_DELETE + IN_MODIFY + IN_MOVED_FROM + IN_MOVED_TO) in
      exists w',
        watch env p pth w = Done (0 <=? fst answer) w'
        /\ heap w' = heap w
        /\ kernel w' = snd answer
        /\ trace w' = trace w ++
              [a_inotify_add_watch (inotify_fd fw) s
                 (IN_CREATE + IN_DELETE + IN_MODIFY + IN_MOVED_FROM + IN_MOVED_TO)
                 (fst answer)]
  end.
Proof.
  intros Hp Hfw. unfold watch.
  destruct (Z.eqb_spec p 0); [contradiction|].
  destruct (GetStringUTFChars env pth) as [s|]; [|reflexivity].
  change (IN_CREATE + IN_DELETE + IN_MODIFY + IN_MOVED_FROM + IN_MOVED_TO) with 962.
  change (Z.lor IN_CREATE (Z.lor IN_DELETE (Z.lor IN_MODIFY
            (Z.lor IN_MOVED_FROM IN_MOVED_TO)))) with 962.
  unfold inotify_add_watch. run_using ltac:(rewrite ?Hfw).
  destruct (sys_inotify_add_watch (kernel w) (inotify_fd fw) s 962) as [wd k].
  run_using idtac. cbn [fst snd]. eexists. rewrite Z.geb_leb.
  split; [reflexivity|]. repeat apply conj; reflexivity.
Qed.

Lemma watch_reports_kernel_answer_witness :
  match GetStringUTFChars jvm (str "/tmp/x") with
  | None => watch jvm 4096 (str "/tmp/x") (world_with (watcher_with [] 0 0))
            = Done false (world_with (watcher_with [] 0 0))
  | Some s =>
      let answer :=
        sys_inotify_add_watch (kernel (world_with (watcher_with [] 0 0)))
          (inotify_fd (watcher_with [] 0 0)) s
          (IN_CREATE + IN_DELETE + IN_MODIFY + IN_MOVED_FROM + IN_MOVED_TO) in
      exists w',
        watch jvm 4096 (str "/tmp/x") (world_with (watcher_with [] 0 0))
        = Done (0 <=? fst answer) w'
        /\ heap w' = heap (world_with (watcher_with [] 0 0))
        /\ kernel w' = snd answer
        /\ trace w' = trace (world_with (watcher_with [] 0 0)) ++
              [a_inotify_add_watch (inotify_fd (watcher_with [] 0 0)) s
                 (IN_CREATE + IN_DELETE + IN_MODIFY + IN_MOVED_FROM + IN_MOVED_TO)
                 (fst answer)]
  end.
Proof.
  apply (watch_reports_kernel_answer jvm (world_with (watcher_with [] 0 0)) 4096
           (watcher_with [] 0 0) (str "/tmp/x")).
  - lia.
  - apply lookup_singleton_eq.
Defined.

(** ** [nextEvent]: what every call leaves behind *)

(** The two ways a call that returns can have gone: served from the
    buffer, or after one [read]. *)
Lemma nextEvent_outcome env p w fw :
  p <> 0 ->
  heap w !! p = Some fw ->
  mutex_locked fw = false ->
  match nextEvent env p w with
  | Undefined => True
  | Done r w' =>
      exists fw',
        heap w' = <[p := fw']> (heap w)
        /\ inotify_fd fw' = inotify_fd fw
        /\ mutex_locked fw' = false
        /\ ((kernel w' = kernel w
             /\ event_buffer fw' = event_buffer fw
             /\ buffer_len fw' = buffer_len fw
             /\ buffer_pos fw < buffer_len fw)
            \/ (exists n data,
                  buffer_len fw <= buffer_pos fw
                  /\ sys_read (kernel w) (inotify_fd fw) BUF_LEN = (n, data, kernel w')
                  /\ event_buffer fw' = data ++ drop (length data) (event_buffer fw)
                  /\ buffer_len fw' = to_int32 n
                  /\ (to_int32 n <= 0 -> r = None)))
  end.
Proof.
  intros Hp Hfw Hm. unfold nextEvent.
  destruct (Z.eqb_spec p 0); [contradiction|].
  destruct fw as [fd lk buf pos blen]. cbn in Hm. subst lk.
  destruct (pos >=? blen) eqn:Hge.
  - unfold read_into_buffer.
    destruct (sys_read (kernel w) fd BUF_LEN) as [[rn data] k'] eqn:Hrd.
    run_using ltac:(rewrite ?Hfw, ?Hge, ?Hrd).
    assert (Hle : blen <= pos) by (rewrite Z.geb_leb in Hge; apply Z.leb_le in Hge; lia).
    destruct (to_int32 rn <=? 0) eqn:Hn.
    + run_using idtac. eexists. split; [reflexivity|].
      cbn [inotify_fd mutex_locked event_buffer buffer_len buffer_pos kernel].
      repeat apply conj; try reflexivity.
      right. exists rn, data. repeat apply conj; try reflexivity; assumption.
    + run_using idtac.
      destruct (read_u32 (data ++ drop (length data) buf) (0 + 12)) as [l|];
        [|run_using idtac; exact I].
      run_using idtac.
      destruct (create_event_object env (data ++ drop (length data) buf) 0 [])
        as [r|]; [|run_using idtac; exact I].
      run_using idtac. eexists. split; [reflexivity|].
      cbn [inotify_fd mutex_locked event_buffer buffer_len buffer_pos kernel].
      repeat apply conj; try reflexivity.
      right. exists rn, data. repeat apply conj; try reflexivity; try assumption.
      intros Hneg. apply Z.leb_gt in Hn. lia.
  - run_using ltac:(rewrite ?Hfw, ?Hge).
    assert (Hlt : pos < blen) by (rewrite Z.geb_leb in Hge; apply Z.leb_gt in Hge; lia).
    destruct (read_u32 buf (pos + 12)) as [l|]; [|run_using idtac; exact I].
    run_using idtac.
    destruct (create_event_object env buf pos []) as [r|];
      [|run_using idtac; exact I].
    run_using idtac. eexists. split; [reflexivity|].
    cbn [inotify_fd mutex_locked event_buffer buffer_len buffer_pos kernel].
    repeat apply conj; try reflexivity.
    left. repeat apply conj; try reflexivity. assumption.
Qed.

Lemma take_events_fits (q : list inotify_event) :
  forallb wf_event q = true ->
  forall count t r,
    take_events count q = (t, r) ->
    Z.of_nat (length (records_bytes t)) <= Z.max 0 count
    /\ q = t ++ r
    /\ forallb wf_event t = true
    /\ forallb wf_event r = true.
Proof.
  induction q as [|ev q IH]; intros Hwf count t r H.
  - cbn in H. injection H as <- <-. cbn. repeat split; lia.
  - cbn [forallb] in Hwf. apply andb_prop in Hwf. destruct Hwf as [Hev Hq].
    cbn [take_events] in H.
    destruct (event_size ev <=? count) eqn:Hfit.
    + destruct (take_events (count - event_size ev) q) as [t' r'] eqn:Ht.
      injection H as <- <-.
      destruct (IH Hq _ _ _ Ht) as (Hlen & Heq & Hwt & Hwr).
      apply Z.leb_le in Hfit.
      pose proof (encode_event_length ev Hev) as Hsz.
      rewrite records_bytes_cons, length_app. cbn [forallb].
      rewrite Hev, Hwt. repeat split; try assumption; [lia | rewrite Heq at 1; reflexivity].
    + injection H as <- <-. cbn [forallb]. rewrite Hev, Hq. cbn.
      repeat split; lia.
Qed.

(** What [read] can do to the kernel: the data fits the count, and the
    registrations stay. *)
Lemma sys_read_facts k fd count n data k' :
  forallb wf_event (pending k fd) = true ->
  sys_read k fd count = (n, data, k') ->
  Z.of_nat (length data) <= Z.max 0 count
  /\ (forall pth, registrations k' fd pth = registrations k fd pth)
  /\ forallb wf_event (pending k' fd) = true
  /\ files k' = files k.
Proof.
  unfold sys_read, pending, registrations. intros Hwf H.
  destruct (lookup_fd k fd) as [ino|] eqn:Hlk.
  - destruct (take_events count (queue ino)) as [t r] eqn:Ht.
    destruct (take_events_fits _ Hwf _ _ _ Ht) as (Hlen & _ & _ & Hr).
    destruct t as [|e t].
    + injection H as <- <- <-. rewrite Hlk. cbn. repeat split; try lia; assumption.
    + injection H as <- <- <-.
      assert (Hfd : (fd <? 0) = false).
      { unfold lookup_fd in Hlk. destruct (fd <? 0); [discriminate | reflexivity]. }
      unfold lookup_fd. cbn [fds set_fds files]. rewrite Hfd, lookup_insert_eq.
      cbn [watches queue]. repeat split; assumption.
  - injection H as <- <- <-. rewrite Hlk. cbn. repeat split; lia.
Qed.

(** X16: a call of [nextEvent] that returns leaves the watcher allocated
    and sound: mutex released, descriptor unchanged, buffer still of
    [BUF_LEN] bytes; and it leaves the kernel's registrations for the
    watcher as they were. *)
Theorem nextEvent_keeps_watcher_sound env p w fw r w' :
  p <> 0 ->
  heap w !! p = Some fw ->
  mutex_locked fw = false ->
  Z.of_nat (length (event_buffer fw)) = BUF_LEN ->
  forallb wf_event (pending (kernel w) (inotify_fd fw)) = true ->
  nextEvent env p w = Done r w' ->
  exists fw',
    heap w' !! p = Some fw'
    /\ mutex_locked fw' = false
    /\ inotify_fd fw' = inotify_fd fw
    /\ Z.of_nat (length (event_buffer fw')) = BUF_LEN
    /\ (forall pth, registrations (kernel w') (inotify_fd fw) pth
                    = registrations (kernel w) (inotify_fd fw) pth)
    /\ forallb wf_event (pending (kernel w') (inotify_fd fw)) = true.
Proof.
  intros Hp Hfw Hm Hsz Hq Hrun.
  pose proof (nextEvent_outcome env p w fw Hp Hfw Hm) as Hout.
  rewrite Hrun in Hout.
  destruct Hout as (fw' & Hheap & Hfd & Hlk & Hcase).
  exists fw'. rewrite Hheap, lookup_insert_eq.
  split; [reflexivity|]. split; [assumption|]. split; [assumption|].
  destruct Hcase as [(Hk & Hbuf & _) | (n & data & _ & Hrd & Hbuf & _)].
  - rewrite Hk, Hbuf. split; [assumption|]. split; [reflexivity | assumption].
  - destruct (sys_read_facts _ _ _ _ _ _ Hq Hrd) as (Hlen & Hreg & Hq' & _).
    split; [|split; assumption].
    rewrite Hbuf, length_app, length_drop.
    change (Z.max 0 BUF_LEN) with BUF_LEN in Hlen. lia.
Qed.

Lemma nextEvent_keeps_watcher_sound_witness :
  exists fw',
    heap (after_event 4096 (watcher_with (encode_event ev_ignored) 0 16)
            (len ev_ignored)
            (world_with (watcher_with (encode_event ev_ignored) 0 16)))
      !! 4096 = Some fw'
    /\ mutex_locked fw' = false
    /\ inotify_fd fw' = inotify_fd (watcher_with (encode_event ev_ignored) 0 16)
    /\ Z.of_nat (length (event_buffer fw')) = BUF_LEN
    /\ (forall pth,
          registrations
            (kernel (after_event 4096 (watcher_with (encode_event ev_ignored) 0 16)
                       (len ev_ignored)
                       (world_with (watcher_with (encode_event ev_ignored) 0 16))))
            (inotify_fd (watcher_with (encode_event ev_ignored) 0 16)) pth
          = registrations
              (kernel (world_with (watcher_with (encode_event ev_ignored) 0 16)))
              (inotify_fd (watcher_with (encode_event ev_ignored) 0 16)) pth)
    /\ forallb wf_event
         (pending
            (kernel (after_event 4096 (watcher_with (encode_event ev_ignored) 0 16)
                       (len ev_ignored)
                       (world_with (watcher_with (encode_event ev_ignored) 0 16))))
            (inotify_fd (watcher_with (encode_event ev_ignored) 0 16))) = true.
Proof.
  apply (nextEvent_keeps_watcher_sound jvm 4096
           (world_with (watcher_with (encode_event ev_ignored) 0 16))
           (watcher_with (encode_event ev_ignored) 0 16)
           (deliver jvm ev_ignored)).
  - lia.
  - apply lookup_singleton_eq.
  - reflexivity.
  - vm_compute. reflexivity.
  - vm_compute. reflexivity.
  - apply (nextEvent_record jvm _ 4096 _ [] ev_ignored
             (tail_of (encode_event ev_ignored))).
    + lia.
    + apply lookup_singleton_eq.
    + reflexivity.
    + reflexivity.
    + reflexivity.
    + vm_compute. reflexivity.
    + reflexivity.
Defined.

(** ** Independence of watchers *)

Lemma nextEvent_dead env p w :
  p <> 0 -> heap w !! p = None -> nextEvent env p w = Undefined.
Proof.
  intros Hp Hfw. unfold nextEvent.
  destruct (Z.eqb_spec p 0); [contradiction|].
  run_using ltac:(rewrite ?Hfw). reflexivity.
Qed.

Lemma nextEvent_locked env p w fw :
  p <> 0 -> heap w !! p = Some fw -> mutex_locked fw = true ->
  nextEvent env p w = Undefined.
Proof.
  intros Hp Hfw Hm. unfold nextEvent.
  destruct (Z.eqb_spec p 0); [contradiction|].
  run_using ltac:(rewrite ?Hfw, ?Hm). reflexivity.
Qed.

Lemma watch_keeps_heap env p pth w r w' :
  watch env p pth w = Done r w' -> heap w' = heap w.
Proof.
  unfold watch. destruct (p =? 0); [intros H; injection H as _ <-; reflexivity|].
  destruct (GetStringUTFChars env pth) as [s|];
    [|intros H; injection H as _ <-; reflexivity].
  unfold inotify_add_watch.
  destruct (heap w !! p) as [fw|] eqn:Hfw.
  - run_using ltac:(rewrite ?Hfw).
    destruct (sys_inotify_add_watch (kernel w) (inotify_fd fw) s _) as [wd k].
    run_using idtac. intros H. injection H as _ <-. reflexivity.
  - run_using ltac:(rewrite ?Hfw). discriminate.
Qed.

(** X17: two watchers are independent: whatever [watch], [nextEvent],
    [close] or [destroy] does on the watcher at [p], the structure of any
    other watcher [q] is left as it was. *)
Theorem other_watchers_untouched env p q pth w :
  q <> p ->
  (forall r w', watch env p pth w = Done r w' -> heap w' !! q = heap w !! q)
  /\ (forall r w', nextEvent env p w = Done r w' -> heap w' !! q = heap w !! q)
  /\ (forall w', close p w = Done tt w' -> heap w' !! q = heap w !! q)
  /\ (forall w', destroy p w = Done tt w' -> heap w' !! q = heap w !! q).
Proof.
  intros Hq. repeat apply conj.
  - intros r w' H. rewrite (watch_keeps_heap _ _ _ _ _ _ H). reflexivity.
  - intros r w' H. destruct (Z.eq_dec p 0) as [->|Hp].
    { cbn in H. injection H as _ <-. reflexivity. }
    destruct (heap w !! p) as [fw|] eqn:Hfw.
    + destruct (mutex_locked fw) eqn:Hm.
      * rewrite (nextEvent_locked env p w fw Hp Hfw Hm) in H. discriminate.
      * pose proof (nextEvent_outcome env p w fw Hp Hfw Hm) as Hout.
        rewrite H in Hout. destruct Hout as (fw' & -> & _).
        apply lookup_insert_ne. congruence.
    + rewrite (nextEvent_dead env p w Hp Hfw) in H. discriminate.
  - intros w' H. destruct (Z.eq_dec p 0) as [->|Hp].
    { cbn in H. injection H as <-. reflexivity. }
    destruct (heap w !! p) as [fw|] eqn:Hfw.
    + rewrite (close_explicit w p fw Hp Hfw) in H. injection H as <-.
      unfold after_close. cbn [heap]. apply lookup_insert_ne. congruence.
    + unfold close in H. destruct (Z.eqb_spec p 0); [contradiction|].
      revert H. run_using ltac:(rewrite ?Hfw). discriminate.
  - intros w' H. destruct (Z.eq_dec p 0) as [->|Hp].
    { cbn in H. injection H as <-. reflexivity. }
    destruct (heap w !! p) as [fw|] eqn:Hfw.
    + destruct (mutex_locked fw) eqn:Hm.
      * unfold destroy in H. destruct (Z.eqb_spec p 0); [contradiction|].
        revert H. unfold pthread_mutex_destroy, close_fd.
        destruct (inotify_fd fw >=? 0) eqn:Hfd;
          run_using ltac:(rewrite ?Hfw, ?Hfd, ?Hm); discriminate.
      * rewrite (destroy_explicit w p fw Hp Hfw Hm) in H. injection H as <-.
        cbn [heap]. apply lookup_delete_ne. congruence.
    + unfold destroy in H. destruct (Z.eqb_spec p 0); [contradiction|].
      revert H. run_using ltac:(rewrite ?Hfw). discriminate.
Qed.

Lemma other_watchers_untouched_witness :
  heap two_watchers !! 8192
  = Some (set_inotify_fd 4 (watcher_with (encode_event ev_ignored) 0 16))
  /\ heap two_watchers !! 4096 = Some (watcher_with [] 0 0)
  /\ returned (watch jvm 4096 (str "/tmp/x") two_watchers) = Some true
  /\ returned (nextEvent jvm 4096 two_watchers) = Some None
  /\ returned (close 4096 two_watchers) = Some tt
  /\ returned (destroy 4096 two_watchers) = Some tt
  /\ ((forall r w', watch jvm 4096 (str "/tmp/x") two_watchers = Done r w' ->
                    heap w' !! 8192 = heap two_watchers !! 8192)
      /\ (forall r w', nextEvent jvm 4096 two_watchers = Done r w' ->
                       heap w' !! 8192 = heap two_watchers !! 8192)
      /\ (forall w', close 4096 two_watchers = Done tt w' ->
                     heap w' !! 8192 = heap two_watchers !! 8192)
      /\ (forall w', destroy 4096 two_watchers = Done tt w' ->
                     heap w' !! 8192 = heap two_watchers !! 8192)).
Proof.
  split; [apply lookup_insert_eq|].
  split; [unfold two_watchers; cbn [heap];
          rewrite lookup_insert_ne by lia; apply lookup_singleton_eq|].
  split; [vm_compute; reflexivity|].
  split; [vm_compute; reflexivity|].
  split; [vm_compute; reflexivity|].
  split; [vm_compute; reflexivity|].
  apply (other_watchers_untouched jvm 4096 8192 (str "/tmp/x") two_watchers).
  lia.
Defined.

(** ** From the kernel queue to the caller *)

(** With the buffer used up and a read that returns data, the call stores
    the data at the start of the buffer and takes the first record. *)
Lemma nextEvent_refill env w p fw n data k' l r :
  p <> 0 ->
  heap w !! p = Some fw ->
  mutex_locked fw = false ->
  buffer_len fw <= buffer_pos fw ->
  sys_read (kernel w) (inotify_fd fw) BUF_LEN = (n, data, k') ->
  0 < to_int32 n ->
  read_u32 (data ++ drop (length data) (event_buffer fw)) (0 + 12) = Some l ->
  create_event_object env (data ++ drop (length data) (event_buffer fw)) 0 []
    = Some r ->
  nextEvent env p w = Done r (after_refill p fw n data l k' w).
Proof.
  intros Hp Hfw Hm Hle Hrd Hn Hl Hr. unfold nextEvent.
  destruct (Z.eqb_spec p 0); [contradiction|].
  destruct fw as [fd lk buf pos blen]. cbn in Hm, Hle, Hrd, Hl, Hr. subst lk.
  assert (Hge : (pos >=? blen) = true) by (rewrite Z.geb_leb; apply Z.leb_le; lia).
  assert (Hpos : (to_int32 n <=? 0) = false) by (apply Z.leb_gt; lia).
  unfold read_into_buffer.
  run_using ltac:(rewrite ?Hfw, ?Hge, ?Hrd, ?Hpos, ?Hl, ?Hr).
  unfold after_refill. cbn. rewrite <- !app_assoc. reflexivity.
Qed.

Lemma sys_read_empty k fd count :
  pending k fd = [] -> sys_read k fd count = (-1, [], k).
Proof.
  unfold pending, sys_read. destruct (lookup_fd k fd) as [ino|]; [|reflexivity].
  intros ->. reflexivity.
Qed.

(** Polling a watcher whose buffer is used up and whose kernel queue is
    empty. *)
Lemma poll_n_idle env p n :
  forall w fw,
    p <> 0 ->
    heap w !! p = Some fw ->
    mutex_locked fw = false ->
    buffer_len fw <= buffer_pos fw ->
    pending (kernel w) (inotify_fd fw) = [] ->
    exists w',
      poll_n env p n w = Done (replicate n None) w'
      /\ kernel w' = kernel w
      /\ filter (fun a => is_syscall a = true) (trace w')
         = filter (fun a => is_syscall a = true) (trace w)
           ++ replicate n (a_read (inotify_fd fw) (-1))
      /\ (forall q, q <> p -> heap w' !! q = heap w !! q).
Proof.
  induction n as [|n IH]; intros w fw Hp Hfw Hm Hle Hq.
  - exists w. cbn. rewrite app_nil_r. repeat apply conj; reflexivity.
  - pose proof (nextEvent_failed_read env w p fw Hp Hfw Hm Hle
                  (sys_read_empty _ _ _ Hq)) as Hstep.
    destruct (IH (after_failed_read p fw w)
                 (set_buffer_pos 0 (set_buffer_len (-1) fw)) Hp)
      as (w' & Hrun & Hk & Htr & Hfr).
    + unfold after_failed_read. cbn [heap]. apply lookup_insert_eq.
    + exact Hm.
    + cbn. lia.
    + exact Hq.
    + exists w'. cbn [poll_n replicate]. unfold bind at 1. rewrite Hstep.
      unfold bind at 1. rewrite Hrun.
      split; [reflexivity|]. split; [exact Hk|]. split.
      * rewrite Htr. unfold after_failed_read.
        cbn [trace inotify_fd set_buffer_pos set_buffer_len].
        rewrite filter_app, <- app_assoc. reflexivity.
      * intros q Hne. rewrite (Hfr q Hne). unfold after_failed_read.
        cbn [heap]. apply lookup_insert_ne. congruence.
Qed.




Lemma registrations_same_watches k fd ino ino' pth :
  lookup_fd k fd = Some ino ->
  watches ino' = watches ino ->
  registrations (set_fds (insert fd ino') k) fd pth = registrations k fd pth.
Proof.
  intros Hlk Hw. unfold registrations. rewrite Hlk.
  assert (Hfd : (fd <? 0) = false).
  { unfold lookup_fd in Hlk. destruct (fd <? 0); [discriminate | reflexivity]. }
  unfold lookup_fd. cbn [fds set_fds]. rewrite Hfd, lookup_insert_eq, Hw.
  reflexivity.
Qed.

(** Everything the kernel has queued comes out, in queue order, one event
    per call, over as many reads as the buffer size makes necessary. *)
Lemma poll_n_queue env p m :
  forall q w fw ino,
    (length q <= m)%nat ->
    p <> 0 ->
    heap w !! p = Some fw ->
    mutex_locked fw = false ->
    Z.of_nat (length (event_buffer fw)) = BUF_LEN ->
    buffer_len fw <= buffer_pos fw ->
    lookup_fd (kernel w) (inotify_fd fw) = Some ino ->
    queue ino = q ->
    forallb wf_event q = true ->
    Forall (fun ev => event_size ev <= BUF_LEN) q ->
    exists w' fw',
      poll_n env p (length q) w = Done (deliver env <$> q) w'
      /\ heap w' !! p = Some fw'
      /\ mutex_locked fw' = false
      /\ inotify_fd fw' = inotify_fd fw
      /\ buffer_len fw' <= buffer_pos fw'
      /\ pending (kernel w') (inotify_fd fw) = []
      /\ (forall pth, registrations (kernel w') (inotify_fd fw) pth
                      = registrations (kernel w) (inotify_fd fw) pth).
Proof.
  induction m as [|m IH]; intros q w fw ino Hm Hp Hfw Hlk Hsz Hle Hfd Hq Hwf Hfit.
  - destruct q; [|cbn in Hm; lia].
    exists w, fw. unfold pending. rewrite Hfd, Hq.
    repeat apply conj; try reflexivity; assumption.
  - destruct q as [|ev q0].
    { exists w, fw. unfold pending. rewrite Hfd, Hq.
      repeat apply conj; try reflexivity; assumption. }
    destruct (take_events BUF_LEN (ev :: q0)) as [t r] eqn:Ht.
    destruct (take_events_fits _ Hwf _ _ _ Ht) as (Hlen & Heq & Hwt & Hwr).
    assert (Hev1 : event_size ev <= BUF_LEN).
    { apply Forall_cons in Hfit. tauto. }
    assert (Ht' : exists t', t = ev :: t').
    { cbn [take_events] in Ht.
      destruct (Z.leb_spec (event_size ev) BUF_LEN); [|lia].
      destruct (take_events (BUF_LEN - event_size ev) q0) as [t' r'].
      injection Ht as <- _. eexists. reflexivity. }
    destruct Ht' as (t' & ->).
    cbn [forallb] in Hwt. apply andb_prop in Hwt. destruct Hwt as [Hwev Hwt'].
    pose proof (encode_event_length ev Hwev) as Hevlen.
    assert (Hlen0 : 0 <= len ev).
    { destruct (wf_event_inv ev Hwev) as (_ & _ & -> & _). lia. }
    set (data := records_bytes (ev :: t')) in *.
    set (rest := drop (length data) (event_buffer fw)).
    set (ino1 := {| watches := watches ino; next_wd := next_wd ino; queue := r |}).
    set (k1 := set_fds (insert (inotify_fd fw) ino1) (kernel w)).
    assert (Hrd : sys_read (kernel w) (inotify_fd fw) BUF_LEN
                  = (Z.of_nat (length data), data, k1)).
    { unfold sys_read. rewrite Hfd, Hq, Ht. reflexivity. }
    change (Z.max 0 BUF_LEN) with 32768 in Hlen.
    assert (HB : BUF_LEN = 32768) by reflexivity.
    assert (Hdata : data = encode_event ev ++ records_bytes t') by reflexivity.
    assert (Hdl : Z.of_nat (length data)
                  = event_size ev + Z.of_nat (length (records_bytes t'))).
    { rewrite Hdata, length_app. lia. }
    unfold event_size, EVENT_SIZE in *.
    assert (Hn : to_int32 (Z.of_nat (length data)) = Z.of_nat (length data))
      by (apply to_int32_small; lia).
    assert (Hbuf1 : data ++ rest = [] ++ encode_event ev ++ (records_bytes t' ++ rest)).
    { rewrite Hdata, <- app_assoc. reflexivity. }
    assert (Hl : read_u32 (data ++ rest) (0 + 12) = Some (len ev)).
    { rewrite Hbuf1. exact (record_len [] _ ev Hwev). }
    assert (Hr : create_event_object env (data ++ rest) 0 [] = Some (deliver env ev)).
    { rewrite Hbuf1. exact (create_event_object_record [] _ ev Hwev env []). }
    pose proof (nextEvent_refill env w p fw _ data k1 (len ev) _ Hp Hfw Hlk Hle Hrd
                  ltac:(lia) Hl Hr) as Hstep.
    set (w1 := after_refill p fw (Z.of_nat (length data)) data (len ev) k1 w) in *.
    set (fw1 := {| inotify_fd := inotify_fd fw; mutex_locked := false;
                   event_buffer := data ++ rest;
                   buffer_pos := to_int32 (0 + 16 + len ev);
                   buffer_len := to_int32 (Z.of_nat (length data)) |}).
    assert (Hfw1 : heap w1 !! p = Some fw1).
    { subst w1 fw1. unfold after_refill. cbn [heap]. apply lookup_insert_eq. }
    assert (Hpos1 : to_int32 (0 + 16 + len ev) = 16 + len ev)
      by (apply to_int32_small; lia).
    assert (Hrec : holds_records fw1 (encode_event ev) t' rest).
    { unfold holds_records, unread. subst fw1.
      cbn [event_buffer buffer_pos buffer_len].
      rewrite Hn, Hpos1. repeat apply conj.
      - rewrite Hdata, <- app_assoc. reflexivity.
      - subst rest. rewrite length_app, length_drop. lia.
      - lia.
      - lia.
      - exact Hwt'. }
    destruct (poll_n_records env p rest t' w1 fw1 (encode_event ev) Hp Hfw1
                eq_refl Hrec) as (w2 & Hrun2 & Hfw2 & Hk2 & _).
    set (fw2 := set_buffer_pos
                  (buffer_pos fw1 + Z.of_nat (length (records_bytes t'))) fw1) in *.
    assert (Hlk1 : lookup_fd (kernel w2) (inotify_fd fw2) = Some ino1).
    { rewrite Hk2. subst w1 k1. unfold after_refill. cbn [kernel inotify_fd].
      assert (Hfdpos : (inotify_fd fw <? 0) = false).
      { unfold lookup_fd in Hfd. destruct (inotify_fd fw <? 0);
          [discriminate | reflexivity]. }
      unfold lookup_fd. cbn [fds set_fds inotify_fd fw2 fw1 set_buffer_pos].
      rewrite Hfdpos. apply lookup_insert_eq. }
    assert (Hfitr : Forall (fun ev0 => 16 + len ev0 <= BUF_LEN) r).
    { rewrite Heq in Hfit. apply Forall_app in Hfit. tauto. }
    assert (Hmr : (length r <= m)%nat).
    { rewrite Heq in Hm. rewrite length_app in Hm. cbn in Hm. lia. }
    destruct (IH r w2 fw2 ino1 Hmr Hp Hfw2 eq_refl) as
      (w3 & fw3 & Hrun3 & Hfw3 & Hlk3 & Hfd3 & Hle3 & Hpend3 & Hreg3).
    { subst fw2 fw1. cbn [event_buffer set_buffer_pos].
      subst rest. rewrite length_app, length_drop. lia. }
    { subst fw2 fw1. cbn [buffer_pos buffer_len set_buffer_pos].
      rewrite Hn, Hpos1. lia. }
    { exact Hlk1. }
    { reflexivity. }
    { exact Hwr. }
    { exact Hfitr. }
    exists w3, fw3. rewrite Heq.
    replace (length ((ev :: t') ++ r)) with (S (length t' + length r))
      by (rewrite length_app; reflexivity).
    cbn [poll_n]. unfold bind at 1. rewrite Hstep.
    unfold bind at 1. rewrite poll_n_app. unfold bind at 1. rewrite Hrun2.
    unfold bind at 1. rewrite Hrun3. unfold ret.
    split; [rewrite fmap_app; reflexivity|].
    split; [exact Hfw3|]. split; [exact Hlk3|].
    split; [rewrite Hfd3; reflexivity|]. split; [exact Hle3|].
    split; [exact Hpend3|].
    intros pth. change (inotify_fd fw2) with (inotify_fd fw) in Hreg3.
    rewrite Hreg3, Hk2. subst w1. unfold after_refill. cbn [kernel]. subst k1.
    apply (registrations_same_watches _ _ ino); [exact Hfd | reflexivity].
Qed.

(** X19: from the kernel queue to the caller.  On an open watcher whose
    buffer is used up, polling once per queued event returns exactly the
    queued events, in queue order, reading again whenever the buffer runs
    empty; the next call returns NULL, the queue is then empty and the
    registrations are untouched. *)
Theorem queued_events_all_delivered w p fw ino :
  p <> 0 ->
  heap w !! p = Some fw ->
  mutex_locked fw = false ->
  Z.of_nat (length (event_buffer fw)) = BUF_LEN ->
  buffer_len fw <= buffer_pos fw ->
  lookup_fd (kernel w) (inotify_fd fw) = Some ino ->
  forallb wf_event (queue ino) = true ->
  Forall (fun ev => event_size ev <= BUF_LEN) (queue ino) ->
  exists w',
    poll_n jvm p (length (queue ino) + 1) w
    = Done ((Some ∘ event_of <$> queue ino) ++ [None]) w'
    /\ pending (kernel w') (inotify_fd fw) = []
    /\ (forall pth, registrations (kernel w') (inotify_fd fw) pth
                    = registrations (kernel w) (inotify_fd fw) pth).
Proof.
  intros Hp Hfw Hm Hsz Hle Hfd Hwf Hfit.
  destruct (poll_n_queue jvm p (length (queue ino)) (queue ino) w fw ino
              (le_n _) Hp Hfw Hm Hsz Hle Hfd eq_refl Hwf Hfit)
    as (w2 & fw2 & Hrun & Hfw2 & Hm2 & Hfd2 & Hle2 & Hpend & Hreg).
  rewrite <- Hfd2 in Hpend.
  destruct (poll_n_idle jvm p 1 w2 fw2 Hp Hfw2 Hm2 Hle2 Hpend)
    as (w3 & Hrun3 & Hk3 & _).
  exists w3. rewrite poll_n_app. unfold bind at 1. rewrite Hrun.
  unfold bind at 1. rewrite Hrun3. unfold ret.
  split; [f_equal|]. rewrite Hk3, <- Hfd2. split; [exact Hpend|].
  rewrite Hfd2. exact Hreg.
Qed.

Lemma queued_events_all_delivered_witness :
  exists w',
    poll_n jvm 4096
      (length (queue {| watches := [(1, str "/tmp/x")]; next_wd := 2;
                        queue := [ev_created; ev_modified] |}) + 1)
      (with_kernel (modified_foo (created_foo (kernel watching)))
         (world_with (watcher_with [] 0 0)))
    = Done ((Some ∘ event_of
               <$> queue {| watches := [(1, str "/tmp/x")]; next_wd := 2;
                            queue := [ev_created; ev_modified] |}) ++ [None]) w'
    /\ pending (kernel w') (inotify_fd (watcher_with [] 0 0)) = []
    /\ (forall pth,
          registrations (kernel w') (inotify_fd (watcher_with [] 0 0)) pth
          = registrations
              (kernel (with_kernel (modified_foo (created_foo (kernel watching)))
                         (world_with (watcher_with [] 0 0))))
              (inotify_fd (watcher_with [] 0 0)) pth).
Proof.
  apply (queued_events_all_delivered
           (with_kernel (modified_foo (created_foo (kernel watching)))
              (world_with (watcher_with [] 0 0)))
           4096 (watcher_with [] 0 0)
           {| watches := [(1, str "/tmp/x")]; next_wd := 2;
              queue := [ev_created; ev_modified] |}).
  - lia.
  - apply lookup_singleton_eq.
  - reflexivity.
  - vm_compute. reflexivity.
  - cbn. lia.
  - vm_compute. reflexivity.
  - vm_compute. reflexivity.
  - repeat constructor; vm_compute; discriminate.
Defined.

(** X20: when the VM cannot allocate the path string, [nextEvent] returns
    NULL but has already moved the cursor past the record: that event is
    lost, and the following calls deliver the records after it. *)
Theorem event_lost_when_string_allocation_fails w p fw pre ev evs rest :
  p <> 0 ->
  heap w !! p = Some fw ->
  mutex_locked fw = false ->
  holds_records fw pre (ev :: evs) rest ->
  exists w1 w2,
    nextEvent jvm_no_memory p w = Done None w1
    /\ poll_n jvm p (length evs) w1 = Done (Some ∘ event_of <$> evs) w2
    /\ kernel w2 = kernel w.
Proof.
  intros Hp Hfw Hm Hrec.
  destruct (holds_records_step _ _ _ _ _ Hrec) as (Hlt & Hint & Hrec').
  destruct Hrec as (Hbuf & _ & Hpos & _ & Hwf).
  cbn [forallb] in Hwf. apply andb_prop in Hwf. destruct Hwf as [Hwf _].
  rewrite records_bytes_cons, <- app_assoc in Hbuf.
  pose proof (nextEvent_record jvm_no_memory w p fw pre ev _ Hp Hfw Hm Hbuf Hpos
                Hlt Hwf) as Hstep.
  set (w1 := after_event p fw (len ev) w) in *.
  assert (Hfw1 : heap w1 !! p =
                 Some (set_buffer_pos (buffer_pos fw + event_size ev) fw)).
  { subst w1. unfold after_event. cbn [heap].
    rewrite lookup_insert_eq, Hint. reflexivity. }
  destruct (poll_n_records jvm p rest evs w1 _ _ Hp Hfw1 Hm Hrec')
    as (w2 & Hrun & _ & Hk & _).
  exists w1, w2. split; [exact Hstep|]. split.
  - rewrite Hrun. f_equal.
  - rewrite Hk. reflexivity.
Qed.

Lemma event_lost_when_string_allocation_fails_witness :
  exists w1 w2,
    nextEvent jvm_no_memory 4096
      (world_with (watcher_with (records_bytes [ev_created; ev_modified]) 0 64))
    = Done None w1
    /\ poll_n jvm 4096 (length [ev_modified]) w1
       = Done (Some ∘ event_of <$> [ev_modified]) w2
    /\ kernel w2
       = kernel (world_with
                   (watcher_with (records_bytes [ev_created; ev_modified]) 0 64)).
Proof.
  apply (event_lost_when_string_allocation_fails
           (world_with (watcher_with (records_bytes [ev_created; ev_modified]) 0 64))
           4096
           (watcher_with (records_bytes [ev_created; ev_modified]) 0 64)
           [] ev_created [ev_modified]
           (tail_of (records_bytes [ev_created; ev_modified]))).
  - lia.
  - apply lookup_singleton_eq.
  - reflexivity.
  - split; [reflexivity|]. repeat apply conj; vm_compute; reflexivity.
Defined.

(** ** [create] and [destroy] together *)

(** X21: [destroy] undoes [create]: after a successful [create] followed
    by [destroy] of the handle it returned, the heap and the kernel's open
    descriptors are as they were before [create], and the descriptor was
    closed once. *)
Theorem create_then_destroy_leaks_nothing env w :
  0 < next_addr w < heap_limit w ->
  0 <= next_fd (kernel w) < fd_limit (kernel w) ->
  jni_cache w = true \/ FindClasses env = true ->
  heap w !! next_addr w = None ->
  fds (kernel w) !! next_fd (kernel w) = None ->
  exists p w1 w2,
    create env w = Done p w1
    /\ p <> 0
    /\ destroy p w1 = Done tt w2
    /\ heap w2 = heap w
    /\ fds (kernel w2) = fds (kernel w)
    /\ new_calls (destroy p) w1
       = Some [a_close (next_fd (kernel w)); a_mutex_destroy p; a_free p].
Proof.
  intros Ha Hf Hjni Hfresh Hfdfresh.
  destruct (create_explicit env w Ha Hf Hjni) as (w1 & Hrun & Hh & Hk & _ & _).
  assert (Hp : next_addr w <> 0) by lia.
  assert (Hfw : heap w1 !! next_addr w = Some (fresh_watcher (next_fd (kernel w)))).
  { rewrite Hh. apply lookup_insert_eq. }
  pose proof (destroy_explicit w1 _ _ Hp Hfw eq_refl) as Hd.
  cbn [inotify_fd fresh_watcher] in Hd.
  assert (Hge : (next_fd (kernel w) >=? 0) = true)
    by (rewrite Z.geb_leb; apply Z.leb_le; lia).
  rewrite Hge in Hd.
  eexists _, w1, _. split; [exact Hrun|]. split; [exact Hp|].
  split; [exact Hd|]. cbn [heap kernel].
  split; [rewrite Hh; apply delete_insert_id; exact Hfresh|].
  split.
  - unfold sys_close, lookup_fd. rewrite Hk.
    destruct (Z.ltb_spec (next_fd (kernel w)) 0); [lia|].
    rewrite lookup_insert_eq. cbn [fds set_fds]. rewrite Hk.
    apply delete_insert_id. exact Hfdfresh.
  - unfold new_calls. rewrite Hd. cbn [trace].
    rewrite drop_app_length. reflexivity.
Qed.

Lemma create_then_destroy_leaks_nothing_witness :
  exists p w1 w2,
    create jvm world0 = Done p w1
    /\ p <> 0
    /\ destroy p w1 = Done tt w2
    /\ heap w2 = heap world0
    /\ fds (kernel w2) = fds (kernel world0)
    /\ new_calls (destroy p) w1
       = Some [a_close (next_fd (kernel world0)); a_mutex_destroy p; a_free p].
Proof.
  apply (create_then_destroy_leaks_nothing jvm world0).
  - vm_compute. split; reflexivity.
  - vm_compute. split; [discriminate | reflexivity].
  - right. reflexivity.
  - vm_compute. reflexivity.
  - vm_compute. reflexivity.
Defined.
